(** * dbj-autostart: the orchestration loop of [dbj_main.py]

    A shallow embedding of the session-startup orchestrator: the config
    records, the loader, the window waiter, the prewarm step and the
    per-rule launch / wait / place loop, followed by the properties of the
    specification that were checked against them.

    Modelling conventions.
    - Interaction with the outside (child processes, standard output and
      error, sleeping) is recorded as a list of events carried by the
      world state, oldest event first.
    - The clock counts integer milliseconds and never goes back:
      [time.time()] reads it, every operation that is recorded takes the
      time the environment decides ([Clock], zero or more), and
      [time.sleep] takes the requested time on top of that.
      Floating-point rounding of the real clock is outside the model.
    - [run] splits its command line as [shlex.split] does, which raises
      [ValueError] on an unclosed quotation or a trailing escape, and hands
      the arguments to the child process, which raises [ValueError] on a
      NUL character; the model records the command line.  The exit code
      and the failure modes of the child belong to the environment.
    - [spawn] hands its command to a shell and records it.  A command is
      taken to hold no NUL character, which [Popen] would refuse.
    - [parse_args] is [argparse]: its outcome ([cli]) is an input of
      [main].
    - The window list that [hyprctl -j clients] reports is an arbitrary
      function of the world state (clock and history).  Each window is the
      JSON object restricted to its string-valued fields.
    - Python's [re] module is an interface ([ReEngine]); a small fragment of
      its syntax is implemented ([PyRe]) to evaluate concrete runs. *)

From stdpp Require Import base strings list gmap pretty.
From Stdlib Require Import ZArith Ascii String Lia.

Local Open Scope string_scope.
Local Open Scope list_scope.
Local Open Scope Z_scope.

(* ===================================================================== *)
(** ** Python values used by the program *)
(* ===================================================================== *)

(** Truthiness of a [str]: only the empty string is falsy. *)
Definition str_truthy (s : string) : bool :=
  match s with
  | EmptyString => false
  | String _ _ => true
  end.

(** [a or b] on strings. *)
Definition str_or (a b : string) : string :=
  if str_truthy a then a else b.

(** Truthiness of an [Optional[str]]: [None] and [""] are falsy. *)
Definition opt_str_truthy (o : option string) : bool :=
  match o with
  | Some s => str_truthy s
  | None => false
  end.

(** Truthiness of an [Optional[int]]: [None] and [0] are falsy. *)
Definition opt_int_truthy (o : option Z) : bool :=
  match o with
  | Some z => negb (z =? 0)
  | None => false
  end.

(** [o or d] with [o : Optional[int]] and [d : int]. *)
Definition opt_int_or (o : option Z) (d : Z) : Z :=
  match o with
  | Some z => if opt_int_truthy o then z else d
  | None => d
  end.

(** The exceptions the modelled code can raise. *)
Inductive exn : Type :=
| ReError          (* re.error, from re.compile *)
| ValueError       (* time.sleep with a negative length *)
| KeyError (k : string)
| TypeError
| AttributeError
| TOMLDecodeError
| OverflowError.   (* time.sleep with a length beyond the C time range *)

(* ===================================================================== *)
(** ** The regular-expression interface *)
(* ===================================================================== *)

(** [re.compile] either returns a compiled pattern or raises [re.error]
    ([None]); [pat.search(s)] is reduced to the truth value of its result.
    The two laws are facts of Python's [re]: the empty pattern is valid and
    matches at position 0 of every string. *)
Class ReEngine : Type := {
  pattern : Type;
  re_compile : string -> option pattern;
  re_search : pattern -> string -> bool;
  re_compile_empty : is_Some (re_compile "");
  re_search_empty : forall p s, re_compile "" = Some p -> re_search p s = true
}.

(** *** A fragment of the [re] syntax

    Literal characters, [.], [^], [$] and the postfix [*].  A pattern that
    uses another metacharacter is reported as [Unsupported]: the fragment
    says nothing about it, and [compile] gives no pattern for it although
    Python may accept it.  The fragment serves to evaluate runs on patterns
    it covers; what is proved of the program is proved for any
    [ReEngine]. *)
Module PyReFragment.

Inductive atom : Type :=
| Lit (c : ascii)
| Dot.

Inductive item : Type :=
| Bol                (* ^ *)
| Eol                (* $ *)
| One (a : atom)
| Star (a : atom).   (* a* *)

Definition regex : Type := list item.

Inductive parsed : Type :=
| Parsed (r : regex)
| Malformed          (* re.error: nothing to repeat / multiple repeat *)
| Unsupported.

Definition newline : ascii := "010"%char.

Definition other_meta (c : ascii) : bool :=
  existsb (Ascii.eqb c)
    ["+"; "?"; "{"; "}"; "["; "]"; "("; ")"; "|"; "\"]%char.

(** Left-to-right parse; [acc] holds the items read so far, last first. *)
Fixpoint parse_from (acc : list item) (s : string) : parsed :=
  match s with
  | EmptyString => Parsed (rev acc)
  | String c s' =>
      if Ascii.eqb c "*" then
        match acc with
        | One a :: acc' => parse_from (Star a :: acc') s'
        | _ => Malformed
        end
      else if Ascii.eqb c "." then parse_from (One Dot :: acc) s'
      else if Ascii.eqb c "^" then parse_from (Bol :: acc) s'
      else if Ascii.eqb c "$" then parse_from (Eol :: acc) s'
      else if other_meta c then Unsupported
      else parse_from (One (Lit c) :: acc) s'
  end.

Definition parse (s : string) : parsed := parse_from [] s.

Definition compile (s : string) : option regex :=
  match parse s with
  | Parsed r => Some r
  | Malformed | Unsupported => None
  end.

(** [.] matches any character except a newline. *)
Definition accepts (a : atom) (c : ascii) : bool :=
  match a with
  | Lit x => Ascii.eqb c x
  | Dot => negb (Ascii.eqb c newline)
  end.

(** [$] matches at the end of the string and just before a final newline. *)
Definition at_end (s : string) : bool :=
  match s with
  | EmptyString => true
  | String c EmptyString => Ascii.eqb c newline
  | String _ (String _ _) => false
  end.

(** Does [r] match a prefix of [s]?  [bos] tells whether [s] starts at the
    beginning of the subject string. *)
Fixpoint match_here (r : regex) (bos : bool) (s : string) {struct r} : bool :=
  match r with
  | [] => true
  | Bol :: r' => bos && match_here r' bos s
  | Eol :: r' => at_end s && match_here r' bos s
  | One a :: r' =>
      match s with
      | String c s' => accepts a c && match_here r' false s'
      | EmptyString => false
      end
  | Star a :: r' =>
      (fix star (bos : bool) (s : string) {struct s} : bool :=
         match_here r' bos s
         || match s with
            | String c s' => accepts a c && star false s'
            | EmptyString => false
            end) bos s
  end.

(** [search]: try every start position, leftmost first. *)
Fixpoint search_from (r : regex) (bos : bool) (s : string) : bool :=
  match_here r bos s
  || match s with
     | String _ s' => search_from r false s'
     | EmptyString => false
     end.

Definition search (r : regex) (s : string) : bool := search_from r true s.

End PyReFragment.

#[export] Instance PyRe : ReEngine.
Proof.
  refine {| pattern := PyReFragment.regex;
            re_compile := PyReFragment.compile;
            re_search := PyReFragment.search |}.
  - by exists [].
  - intros p s Hp. injection Hp as <-. by destruct s.
Defined.

(* ===================================================================== *)
(** ** Data model (the dataclasses) *)
(* ===================================================================== *)

Record AppRule : Type := {
  name : string;
  cmd : string;
  class_regex : string;
  workspace : Z;
  monitor : option string;
  timeout_s : option Z
}.

Record GeneralCfg : Type := {
  prewarm_workspaces : list Z;
  poll_interval_ms : Z;
  default_timeout_s : Z
}.

Record Config : Type := {
  general : GeneralCfg;
  apps : list AppRule
}.

(** One entry of the client list: a JSON object, keys to strings. *)
Abbreviation window := (gmap string string).

(* ===================================================================== *)
(** ** The world: clock and event history *)
(* ===================================================================== *)

Inductive event : Type :=
| EvRun (cmdline : string)     (* subprocess.run(shlex.split(cmdline)) *)
| EvSpawn (cmdline : string)   (* subprocess.Popen(cmdline, shell=True) *)
| EvStdout (line : string)
| EvStderr (line : string)
| EvSleep (ms : Z).

Record World : Type := {
  now : Z;
  trace : list event
}.

(** How long the environment takes over an operation: [lag w e] is the time
    that passes while the operation recorded as [e] is carried out in world
    [w] (for a sleep, the time beyond the requested length).  Time never
    runs backwards. *)
Class Clock : Type := {
  lag : World -> event -> Z;
  lag_nonneg : forall w e, 0 <= lag w e
}.

(** The clock on which only sleeping takes time. *)
#[export] Instance instant : Clock :=
  {| lag := fun _ _ => 0; lag_nonneg := fun _ _ => Z.le_refl 0 |}.

Inductive outcome (A : Type) : Type :=
| Ret (a : A)
| Raise (e : exn)
| OutOfFuel          (* the polling loop did not finish within the fuel *)
| OutsideModel.      (* a value of a type the dataclass annotations exclude *)
Arguments Ret {A} a.
Arguments Raise {A} e.
Arguments OutOfFuel {A}.
Arguments OutsideModel {A}.

(** A program: from a world to an outcome and the world it leaves. *)
Definition prog (A : Type) : Type := World -> outcome A * World.

Definition ret {A} (a : A) : prog A := fun w => (Ret a, w).

Definition raise {A} (e : exn) : prog A := fun w => (Raise e, w).

Definition bind {A B} (m : prog A) (k : A -> prog B) : prog B :=
  fun w =>
    match m w with
    | (Ret a, w') => k a w'
    | (Raise e, w') => (Raise e, w')
    | (OutOfFuel, w') => (OutOfFuel, w')
    | (OutsideModel, w') => (OutsideModel, w')
    end.

Notation "x <- m ;; k" := (bind m (fun x => k))
  (at level 100, m at next level, right associativity).
Notation "m ;;; k" := (bind m (fun _ => k))
  (at level 100, right associativity).

Definition emit {clk : Clock} (e : event) : prog unit :=
  fun w => (Ret tt, {| now := now w + lag w e; trace := trace w ++ [e] |}).


(* ===================================================================== *)
(** ** The configuration loader *)
(* ===================================================================== *)

(** What [tomllib.load] returns, without floats and date-times.  A table is
    kept as its key/value pairs; keys are unique in TOML. *)
#[warnings="-register-all"]
Inductive toml : Type :=
| TInt (z : Z)
| TStr (s : string)
| TBool (b : bool)
| TArr (l : list toml)
| TTab (kv : list (string * toml)).

(** [d.get(k)] / [d[k]] on a table. *)
Fixpoint tab_get (k : string) (kv : list (string * toml)) : option toml :=
  match kv with
  | [] => None
  | (k', v) :: rest => if String.eqb k' k then Some v else tab_get k rest
  end.

Definition obind {A B} (o : outcome A) (k : A -> outcome B) : outcome B :=
  match o with
  | Ret a => k a
  | Raise e => Raise e
  | OutOfFuel => OutOfFuel
  | OutsideModel => OutsideModel
  end.

Notation "x <-- o ;; k" := (obind o (fun x => k))
  (at level 100, o at next level, right associativity).

(** [int(v)] on a TOML value.  [bool] is a subclass of [int]; a list or a
    table raises [TypeError]; parsing a string is not modelled. *)
Definition py_int (v : toml) : outcome Z :=
  match v with
  | TInt z => Ret z
  | TBool b => Ret (if b then 1 else 0)
  | TStr _ => OutsideModel
  | TArr _ | TTab _ => Raise TypeError
  end.

(** The loader stores these fields as they come; the model follows the
    annotations of the dataclasses and leaves other values out. *)
Definition as_str (v : toml) : outcome string :=
  match v with
  | TStr s => Ret s
  | _ => OutsideModel
  end.

Definition as_opt_str (o : option toml) : outcome (option string) :=
  match o with
  | None => Ret None
  | Some (TStr s) => Ret (Some s)
  | Some _ => OutsideModel
  end.

Definition as_opt_int (o : option toml) : outcome (option Z) :=
  match o with
  | None => Ret None
  | Some (TInt z) => Ret (Some z)
  | Some _ => OutsideModel
  end.

Fixpoint as_int_list (l : list toml) : outcome (list Z) :=
  match l with
  | [] => Ret []
  | TInt z :: rest => zs <-- as_int_list rest ;; Ret (z :: zs)
  | _ :: _ => OutsideModel
  end.

(** [app[k]]: a missing key raises [KeyError]. *)
Definition subscript (k : string) (kv : list (string * toml)) : outcome toml :=
  match tab_get k kv with
  | Some v => Ret v
  | None => Raise (KeyError k)
  end.

(** [general = data.get("general", {})], as the table the later
    [general.get] calls read; a non-table has no [get]. *)
Definition general_table (data : list (string * toml))
  : outcome (list (string * toml)) :=
  match tab_get "general" data with
  | None => Ret []
  | Some (TTab kv) => Ret kv
  | Some _ => Raise AttributeError
  end.

Definition load_general (data : list (string * toml)) : outcome GeneralCfg :=
  gen <-- general_table data ;;
  pw <-- match tab_get "prewarm_workspaces" gen with
         | None => Ret []
         | Some (TArr l) => as_int_list l
         | Some _ => OutsideModel
         end ;;
  poll <-- py_int (default (TInt 200) (tab_get "poll_interval_ms" gen)) ;;
  dflt <-- py_int (default (TInt 20) (tab_get "default_timeout_s" gen)) ;;
  Ret {| prewarm_workspaces := pw;
         poll_interval_ms := poll;
         default_timeout_s := dflt |}.

(** One [AppRule(...)] construction; [app] is an element of [data["app"]].
    Subscripting anything but a table with a string raises [TypeError]. *)
Definition load_app (app : toml) : outcome AppRule :=
  match app with
  | TTab kv =>
      n <-- (v <-- subscript "name" kv ;; as_str v) ;;
      c <-- (v <-- subscript "cmd" kv ;; as_str v) ;;
      r <-- (v <-- subscript "class_regex" kv ;; as_str v) ;;
      ws <-- (v <-- subscript "workspace" kv ;; py_int v) ;;
      m <-- as_opt_str (tab_get "monitor" kv) ;;
      t <-- as_opt_int (tab_get "timeout_s" kv) ;;
      Ret {| name := n; cmd := c; class_regex := r;
             workspace := ws; monitor := m; timeout_s := t |}
  | _ => Raise TypeError
  end.

Fixpoint load_apps (l : list toml) : outcome (list AppRule) :=
  match l with
  | [] => Ret []
  | app :: rest =>
      a <-- load_app app ;;
      rs <-- load_apps rest ;;
      Ret (a :: rs)
  end.

(** The values [for app in data.get("app", [])] iterates over.  An empty
    table or string yields nothing; a non-empty one yields strings, whose
    subscript raises [TypeError]; numbers and booleans are not iterable. *)
Definition app_entries (data : list (string * toml)) : outcome (list toml) :=
  match tab_get "app" data with
  | None => Ret []
  | Some (TArr l) => Ret l
  | Some (TTab []) => Ret []
  | Some (TStr EmptyString) => Ret []
  | Some _ => Raise TypeError
  end.

(** [load_config], from the parsed document on. *)
Definition load_config (data : list (string * toml)) : outcome Config :=
  gc <-- load_general data ;;
  entries <-- app_entries data ;;
  rules <-- load_apps entries ;;
  Ret {| general := gc; apps := rules |}.

(** What [parse_args] does with the command line: it returns the
    arguments, or prints the help text on standard output and exits with
    status 0, or prints a usage message on standard error and exits with
    status 2. *)
Inductive cli : Type :=
| Args (config : string) (dry_run : bool)
| HelpExit (text : string)
| UsageExit (text : string).

(** The file behind [--config]. *)
Inductive config_file : Type :=
| Absent
| Undecodable
| Document (data : list (string * toml)).

Definition lift {A} (o : outcome A) : prog A := fun w => (o, w).

(* ===================================================================== *)
(** ** Leaf operations *)
(* ===================================================================== *)

(** The quoting states of [shlex] in POSIX mode, as [shlex.split] sets it
    up (no comment characters): outside quotes, inside single quotes,
    inside double quotes, and right after the escape character outside
    quotes or inside double quotes. *)
Inductive shlex_state : Type :=
| ShPlain
| ShSingle
| ShDouble
| ShEscape
| ShEscapeInDouble.

Definition single_quote : ascii := "039"%char.
Definition double_quote : ascii := "034"%char.
Definition backslash : ascii := "092"%char.

(** One character read by [shlex.read_token].  Inside single quotes the
    escape character is an ordinary character. *)
Definition shlex_step (st : shlex_state) (c : ascii) : shlex_state :=
  match st with
  | ShPlain =>
      if Ascii.eqb c single_quote then ShSingle
      else if Ascii.eqb c double_quote then ShDouble
      else if Ascii.eqb c backslash then ShEscape
      else ShPlain
  | ShSingle => if Ascii.eqb c single_quote then ShPlain else ShSingle
  | ShDouble =>
      if Ascii.eqb c double_quote then ShPlain
      else if Ascii.eqb c backslash then ShEscapeInDouble
      else ShDouble
  | ShEscape => ShPlain
  | ShEscapeInDouble => ShDouble
  end.

Fixpoint shlex_run (st : shlex_state) (s : string) : shlex_state :=
  match s with
  | EmptyString => st
  | String c s' => shlex_run (shlex_step st c) s'
  end.

(** [shlex.split(s)] returns: the end of the input is reached outside
    quotes and escapes.  Otherwise it raises [ValueError] ("No closing
    quotation" or "No escaped character"). *)
Definition shlex_ok (s : string) : bool :=
  match shlex_run ShPlain s with
  | ShPlain => true
  | _ => false
  end.

(** No NUL character: an argument that holds one is refused when the
    child process is set up ([ValueError], embedded null byte). *)
Fixpoint nul_free (s : string) : bool :=
  match s with
  | EmptyString => true
  | String c s' => negb (Ascii.eqb c zero) && nul_free s'
  end.

(** The command lines [run] can hand to a child process. *)
Definition runnable (s : string) : bool := shlex_ok s && nul_free s.

(** A string without quotes, escape characters and NUL. *)
Fixpoint plain (s : string) : bool :=
  match s with
  | EmptyString => true
  | String c s' =>
      negb (Ascii.eqb c single_quote) && negb (Ascii.eqb c double_quote)
      && negb (Ascii.eqb c backslash) && negb (Ascii.eqb c zero) && plain s'
  end.

Section Leaves.

Context {clk : Clock}.

(** [run]: the command line is split and its arguments are handed to the
    child process; both steps can raise [ValueError]. *)
Definition run (cmdline : string) : prog unit :=
  if runnable cmdline then emit (EvRun cmdline) else raise ValueError.

Definition dispatch (c : string) : prog unit :=
  run ("hyprctl dispatch " +:+ c).

Definition move_to_workspace (addr : string) (ws : Z) : prog unit :=
  dispatch ("movetoworkspace " +:+ pretty ws +:+ " address:" +:+ addr).

Definition move_to_monitor (addr : string) (mon : string) : prog unit :=
  dispatch ("focuswindow address:" +:+ addr) ;;;
  dispatch ("movetomonitor " +:+ mon +:+ " address:" +:+ addr).

Definition spawn (c : string) : prog unit := emit (EvSpawn c).

Definition print_out (line : string) : prog unit := emit (EvStdout line).

Definition print_err (line : string) : prog unit := emit (EvStderr line).

(** [time.time()], in milliseconds. *)
Definition time_time : prog Z := fun w => (Ret (now w), w).

(** Lengths up to [sleep_sure] milliseconds, in either sign, are converted
    to the C time type (64-bit nanoseconds) without overflow; from
    [sleep_over] on the conversion raises [OverflowError].  In between,
    around 9.22e12 ms, the outcome depends on floating-point rounding. *)
Definition sleep_sure : Z := 9000000000000.
Definition sleep_over : Z := 10000000000000.

(** [time.sleep(ms / 1000.0)].  The length is converted first; then a
    negative length raises [ValueError]; otherwise the call sleeps for at
    least the length. *)
Definition time_sleep (ms : Z) : prog unit :=
  fun w =>
    if sleep_over <=? Z.abs ms then (Raise OverflowError, w)
    else if sleep_sure <? Z.abs ms then (OutsideModel, w)
    else if ms <? 0 then (Raise ValueError, w)
    else (Ret tt, {| now := now w + ms + lag w (EvSleep ms);
                     trace := trace w ++ [EvSleep ms] |}).

End Leaves.

Definition clients_cmd : string := "hyprctl -j clients".

Section Program.

Context {re : ReEngine} {clk : Clock}.

(** What the window system would report in a given world. *)
Variable source : World -> list window.

Definition hypr_clients : prog (list window) :=
  fun w => (run clients_cmd ;;; ret (source w)) w.

(** [c.get("class", "") or ""] *)
Definition class_of (c : window) : string :=
  str_or (default "" (c !! "class")) "".

(** The [for c in hypr_clients()] loop of [wait_for_window]: [Some a] when
    the loop returns [a = c.get("address")], [None] when it runs through. *)
Fixpoint scan_clients (pat : pattern) (clients : list window)
  : option (option string) :=
  match clients with
  | [] => None
  | c :: rest =>
      if re_search pat (class_of c) then Some (c !! "address")
      else scan_clients pat rest
  end.

(** The [while time.time() - t0 < timeout_s] loop. *)
Fixpoint wait_loop (fuel : nat) (pat : pattern) (t0 timeout poll_ms : Z)
  : prog (option string) :=
  fun w =>
    if now w - t0 <? timeout * 1000 then
      match fuel with
      | O => (OutOfFuel, w)
      | S fuel' =>
          (clients <- hypr_clients ;;
           match scan_clients pat clients with
           | Some addr => ret addr
           | None =>
               time_sleep poll_ms ;;;
               wait_loop fuel' pat t0 timeout poll_ms
           end) w
      end
    else (Ret None, w).

Definition wait_for_window (fuel : nat) (class_regex : string)
    (timeout poll_ms : Z) : prog (option string) :=
  match re_compile class_regex with
  | None => raise ReError
  | Some pat =>
      t0 <- time_time ;;
      wait_loop fuel pat t0 timeout poll_ms
  end.

Definition batch_cmd (ws_list : list Z) : string :=
  "hyprctl --batch '"
  +:+ String.concat "; " (map (fun ws => "dispatch workspace " +:+ pretty ws) ws_list)
  +:+ "'".

Definition prewarm (ws_list : list Z) : prog unit :=
  match ws_list with
  | [] => ret tt
  | _ :: _ => run (batch_cmd ws_list)
  end.

Definition launch_line (rule : AppRule) : string :=
  "[dbj] launching: " +:+ name rule +:+ " -> ws" +:+ pretty (workspace rule)
  +:+ (if opt_str_truthy (monitor rule)
       then " @ " +:+ default "" (monitor rule) else "").

Definition warn_line (rule : AppRule) : string :=
  "[dbj][WARN] timeout esperando ventana de '" +:+ name rule
  +:+ "' (regex=" +:+ class_regex rule +:+ ")".

Definition found_line (addr : string) (rule : AppRule) : string :=
  "[dbj] found window " +:+ addr +:+ " for " +:+ name rule
  +:+ ", moving to ws" +:+ pretty (workspace rule).

Definition place (dry_run : bool) (addr : string) (rule : AppRule) : prog unit :=
  if dry_run then ret tt
  else
    move_to_workspace addr (workspace rule) ;;;
    if opt_str_truthy (monitor rule)
    then move_to_monitor addr (default "" (monitor rule))
    else ret tt.

(** The body of the [for rule in cfg.apps] loop. *)
Definition process_rule (fuel : nat) (g : GeneralCfg) (dry_run : bool)
    (rule : AppRule) : prog unit :=
  print_out (launch_line rule) ;;;
  (if dry_run then ret tt else spawn (cmd rule)) ;;;
  let timeout := opt_int_or (timeout_s rule) (default_timeout_s g) in
  addr <- wait_for_window fuel (class_regex rule) timeout (poll_interval_ms g) ;;
  if opt_str_truthy addr then
    let a := default "" addr in
    print_out (found_line a rule) ;;;
    place dry_run a rule
  else print_err (warn_line rule).

Fixpoint for_rules (fuel : nat) (g : GeneralCfg) (dry_run : bool)
    (rules : list AppRule) : prog unit :=
  match rules with
  | [] => ret tt
  | rule :: rest =>
      process_rule fuel g dry_run rule ;;;
      for_rules fuel g dry_run rest
  end.

Definition orchestrate (fuel : nat) (cfg : Config) (dry_run : bool) : prog Z :=
  prewarm (prewarm_workspaces (general cfg)) ;;;
  for_rules fuel (general cfg) dry_run (apps cfg) ;;;
  ret 0.

(** [main]; the result is the exit status given to [sys.exit]. *)
Definition main (args : cli) (file : config_file) (fuel : nat) : prog Z :=
  match args with
  | HelpExit text => print_out text ;;; ret 0
  | UsageExit text => print_err text ;;; ret 2
  | Args path dry_run =>
      match file with
      | Absent =>
          print_err ("ERROR: No existe config: " +:+ path) ;;;
          ret 2
      | Undecodable => raise TOMLDecodeError
      | Document data =>
          cfg <- lift (load_config data) ;;
          orchestrate fuel cfg dry_run
      end
  end.

End Program.

Arguments scan_clients {re} pat clients.

(* ===================================================================== *)
(** ** Event classes *)
(* ===================================================================== *)

(** A process launch. *)
Definition is_spawn (e : event) : bool :=
  match e with
  | EvSpawn _ => true
  | _ => false
  end.

(** A window-snapshot fetch (one poll of the waiter). *)
Definition is_fetch (e : event) : bool :=
  match e with
  | EvRun c => String.eqb c clients_cmd
  | _ => false
  end.

(** A command sent through [dispatch]: the placement commands. *)
Definition is_dispatch (e : event) : bool :=
  match e with
  | EvRun c => String.prefix "hyprctl dispatch " c
  | _ => false
  end.

(** The batched workspace switch of the prewarm step. *)
Definition is_batch (e : event) : bool :=
  match e with
  | EvRun c => String.prefix "hyprctl --batch " c
  | _ => false
  end.

(** The events a rule may add to the history: log lines, sleeps and
    snapshot fetches in every run; a launch and dispatched commands only
    outside a dry run. *)
Inductive rule_event (dry_run : bool) : event -> Prop :=
| rule_stdout line : rule_event dry_run (EvStdout line)
| rule_stderr line : rule_event dry_run (EvStderr line)
| rule_sleep ms : rule_event dry_run (EvSleep ms)
| rule_fetch : rule_event dry_run (EvRun clients_cmd)
| rule_spawn c : dry_run = false -> rule_event dry_run (EvSpawn c)
| rule_dispatch c :
    dry_run = false -> rule_event dry_run (EvRun ("hyprctl dispatch " +:+ c)).

(** What the prewarm step adds to the history. *)
Definition prewarm_events (ws_list : list Z) : list event :=
  match ws_list with
  | [] => []
  | _ :: _ => [EvRun (batch_cmd ws_list)]
  end.

(** The world a rule's waiter starts in: the launch line is printed and,
    unless in a dry run, the command is spawned. *)
Definition launched {clk : Clock} (dry_run : bool) (rule : AppRule)
    (w : World) : World :=
  snd ((print_out (launch_line rule) ;;;
        if dry_run then ret tt else spawn (cmd rule)) w).

(** [m] only appends events, and each of them satisfies [P]. *)
Definition emits {A} (P : event -> Prop) (m : prog A) : Prop :=
  forall w, exists evs, trace (snd (m w)) = trace w ++ evs /\ Forall P evs.

(* ===================================================================== *)
(** ** Sample configurations, windows and worlds *)
(* ===================================================================== *)

Definition w0 : World := {| now := 0; trace := [] |}.

Definition kitty_win : window := {[ "address" := "0x1"; "class" := "kitty" ]}.

(** A window that reports no class. *)
Definition anon_win : window := {[ "address" := "0x2" ]}.

(** A window that reports a class and no address. *)
Definition ghost_win : window := {[ "class" := "kitty" ]}.

Definition no_windows : World -> list window := fun _ => [].

Definition always_kitty : World -> list window := fun _ => [kitty_win].

Definition always_ghost : World -> list window := fun _ => [ghost_win].

Definition kitty_rule : AppRule :=
  {| name := "term"; cmd := "kitty"; class_regex := "kitty";
     workspace := 2; monitor := None; timeout_s := None |}.

(** The same rule with a per-rule timeout of 0 seconds. *)
Definition zero_rule : AppRule :=
  {| name := "term"; cmd := "kitty"; class_regex := "kitty";
     workspace := 2; monitor := None; timeout_s := Some 0 |}.

(** Prewarm 3 and 5, one rule, a one-second default timeout polled every
    half second. *)
Definition half_second_cfg : Config :=
  {| general := {| prewarm_workspaces := [3; 5]; poll_interval_ms := 500;
                   default_timeout_s := 1 |};
     apps := [kitty_rule] |}.


(** Two rules, declared in this order. *)
Definition second_rule : AppRule :=
  {| name := "web"; cmd := "firefox"; class_regex := "firefox";
     workspace := 3; monitor := Some "DP-1"; timeout_s := Some 1 |}.

Definition two_rule_cfg : Config :=
  {| general := {| prewarm_workspaces := []; poll_interval_ms := 500;
                   default_timeout_s := 1 |};
     apps := [kitty_rule; second_rule] |}.

(** A document that sets the poll interval to 0. *)
Definition zero_poll_doc : list (string * toml) :=
  [("general",
    TTab [("prewarm_workspaces", TArr [TInt 3; TInt 5]);
          ("poll_interval_ms", TInt 0)])].

(** Number of snapshot fetches in a history. *)
Definition fetches (t : list event) : nat :=
  List.length (List.filter is_fetch t).

(** A window source that reports nothing for the first [n] fetches and
    [win] from then on. *)
Definition appears_after (n : nat) (win : window) : World -> list window :=
  fun w => if (fetches (trace w) <? n)%nat then [] else [win].

Definition xterm_win : window := {[ "address" := "0x1"; "class" := "xterm" ]}.

(** The scenario of the specification: prewarm 3 and 5, one rule for
    [xterm], a one-second timeout polled every 50 ms. *)
Definition xterm_cfg : Config :=
  {| general := {| prewarm_workspaces := [3; 5]; poll_interval_ms := 50;
                   default_timeout_s := 1 |};
     apps := [ {| name := "term"; cmd := "xterm"; class_regex := "^xterm$";
                  workspace := 2; monitor := None; timeout_s := None |} ] |}.

(** The compiled form of the pattern [kitty]. *)
Definition kitty_pat : @pattern PyRe :=
  map (fun c => PyReFragment.One (PyReFragment.Lit c))
    ["k"; "i"; "t"; "t"; "y"]%char.

(** The compiled form of the pattern [.*]. *)
Definition dot_star_pat : @pattern PyRe :=
  [PyReFragment.Star PyReFragment.Dot].

Definition sample_general : GeneralCfg :=
  {| prewarm_workspaces := [3; 5]; poll_interval_ms := 200;
     default_timeout_s := 20 |}.

(* ===================================================================== *)
(** ** Polls, launches and latency *)
(* ===================================================================== *)

(** The world after a snapshot fetch. *)
Definition fetched {clk : Clock} (w : World) : World :=
  {| now := now w + lag w (EvRun clients_cmd);
     trace := trace w ++ [EvRun clients_cmd] |}.

(** The world after one pass of the waiter's loop that found nothing: a
    fetch, then a sleep of [poll_ms]. *)
Definition one_poll {clk : Clock} (poll_ms : Z) (w : World) : World :=
  {| now := now (fetched w) + poll_ms + lag (fetched w) (EvSleep poll_ms);
     trace := trace (fetched w) ++ [EvSleep poll_ms] |}.

Fixpoint after_polls {clk : Clock} (k : nat) (poll_ms : Z) (w : World)
  : World :=
  match k with
  | O => w
  | S k' => after_polls k' poll_ms (one_poll poll_ms w)
  end.

(** The commands launched in a history, oldest first. *)
Definition spawned (t : list event) : list string :=
  flat_map (fun e => match e with EvSpawn c => [c] | _ => [] end) t.

(** A clock on which every recorded operation takes one millisecond. *)
Definition ticking : Clock :=
  {| lag := fun _ _ => 1; lag_nonneg := fun _ _ => Z.le_0_1 |}.

(** The dispatched commands that place window [addr] for [rule]. *)
Definition placement_events (addr : string) (rule : AppRule) : list event :=
  EvRun ("hyprctl dispatch movetoworkspace " +:+ pretty (workspace rule)
         +:+ " address:" +:+ addr)
  :: match monitor rule with
     | Some (String c m) =>
         [EvRun ("hyprctl dispatch focuswindow address:" +:+ addr);
          EvRun ("hyprctl dispatch movetomonitor " +:+ String c m
                 +:+ " address:" +:+ addr)]
     | _ => []
     end.

(** The compiled form of the pattern [^xterm$]. *)
Definition xterm_pat : @pattern PyRe :=
  PyReFragment.Bol
  :: map (fun c => PyReFragment.One (PyReFragment.Lit c))
       ["x"; "t"; "e"; "r"; "m"]%char
  ++ [PyReFragment.Eol].






(** The one-rule configuration polled without a pause. *)
Definition zero_poll_cfg : Config :=
  {| general := {| prewarm_workspaces := []; poll_interval_ms := 0;
                   default_timeout_s := 1 |};
     apps := [kitty_rule] |}.

Definition outcome_map {A B} (f : A -> B) (o : outcome A) : outcome B :=
  match o with
  | Ret a => Ret (f a)
  | Raise e => Raise e
  | OutOfFuel => OutOfFuel
  | OutsideModel => OutsideModel
  end.

(** [cfg] with another poll interval. *)
Definition with_poll_interval (z : Z) (cfg : Config) : Config :=
  {| general := {| prewarm_workspaces := prewarm_workspaces (general cfg);
                   poll_interval_ms := z;
                   default_timeout_s := default_timeout_s (general cfg) |};
     apps := apps cfg |}.

(** A document that sets the poll interval to [z] in its general table:
    [g1] and [g2] are the other keys of that table, [d1] and [d2] the other
    keys of the document. *)
Definition poll_doc (d1 g1 : list (string * toml)) (z : Z)
    (g2 d2 : list (string * toml)) : list (string * toml) :=
  d1 ++ ("general", TTab (g1 ++ ("poll_interval_ms", TInt z) :: g2)) :: d2.

(** A window that shows up late and reports no address. *)
Definition late_ghost : World -> list window := appears_after 2 ghost_win.

(** A document with two applications. *)
Definition two_app_doc : list (string * toml) :=
  [("general", TTab [("poll_interval_ms", TInt 100)]);
   ("app",
    TArr [TTab [("name", TStr "term"); ("cmd", TStr "kitty");
                ("class_regex", TStr "kitty"); ("workspace", TInt 2)];
          TTab [("name", TStr "web"); ("cmd", TStr "firefox");
                ("class_regex", TStr "firefox"); ("workspace", TInt 3);
                ("monitor", TStr "DP-1"); ("timeout_s", TInt 5)]])].

(** A document whose second application has no [cmd]. *)
Definition missing_cmd_doc : list (string * toml) :=
  [("app",
    TArr [TTab [("name", TStr "term"); ("cmd", TStr "kitty");
                ("class_regex", TStr "kitty"); ("workspace", TInt 2)];
          TTab [("name", TStr "web");
                ("class_regex", TStr "firefox"); ("workspace", TInt 3)]])].

(* ===================================================================== *)
(** ** The scan of one snapshot *)
(* ===================================================================== *)

Section ScanFacts.

Context {re : ReEngine}.

Lemma class_of_missing (c : window) :
  c !! "class" = None \/ c !! "class" = Some "" -> class_of c = "".
Proof. unfold class_of. by intros [-> | ->]. Qed.

Lemma scan_clients_none (pat : pattern) (ws : list window) :
  scan_clients pat ws = None <->
  Forall (fun c => re_search pat (class_of c) = false) ws.
Proof.
  induction ws as [|c ws IH]; simpl.
  - split; [constructor | done].
  - destruct (re_search pat (class_of c)) eqn:Hc.
    + split; [done |]. intros H. inversion H; congruence.
    + rewrite IH. split.
      * by constructor.
      * intros H. by inversion H.
Qed.

Lemma scan_clients_some (pat : pattern) (ws : list window) (a : option string) :
  scan_clients pat ws = Some a <->
  exists pre c post,
    ws = pre ++ c :: post
    /\ Forall (fun c' => re_search pat (class_of c') = false) pre
    /\ re_search pat (class_of c) = true
    /\ a = c !! "address".
Proof.
  induction ws as [|c ws IH]; simpl.
  - split; [done |]. intros (pre & c & post & Hws & _). by destruct pre.
  - destruct (re_search pat (class_of c)) eqn:Hc.
    + split.
      * intros [= <-]. exists [], c, ws. by repeat split.
      * intros (pre & c' & post & Hws & Hpre & Hc' & ->).
        destruct pre as [|p pre]; simpl in Hws.
        -- by injection Hws as -> ->.
        -- injection Hws as -> ->. inversion Hpre; congruence.
    + rewrite IH. split.
      * intros (pre & c' & post & -> & Hpre & Hc' & ->).
        exists (c :: pre), c', post. repeat split; [by constructor | done].
      * intros (pre & c' & post & Hws & Hpre & Hc' & ->).
        destruct pre as [|p pre]; simpl in Hws.
        -- injection Hws as -> ->. congruence.
        -- injection Hws as -> ->. exists pre, c', post.
           repeat split; [by inversion Hpre | done].
Qed.

End ScanFacts.

Lemma launched_trace {clk : Clock} (dry_run : bool) (rule : AppRule)
    (w : World) :
  trace (launched dry_run rule w)
  = trace w ++ EvStdout (launch_line rule)
      :: (if dry_run then [] else [EvSpawn (cmd rule)]).
Proof.
  destruct dry_run; [done |].
  unfold launched, bind, print_out, spawn, emit; simpl.
  by rewrite <- app_assoc.
Qed.

(* ===================================================================== *)
(** ** Command lines that split *)
(* ===================================================================== *)

Lemma shlex_run_app (st : shlex_state) (s1 s2 : string) :
  shlex_run st (s1 +:+ s2) = shlex_run (shlex_run st s1) s2.
Proof. revert st. induction s1 as [|c s1 IH]; intros st; simpl; [done | apply IH]. Qed.

Lemma plain_app (s1 s2 : string) :
  plain (s1 +:+ s2) = plain s1 && plain s2.
Proof.
  induction s1 as [|c s1 IH]; simpl; [done |].
  rewrite IH. by rewrite !andb_assoc.
Qed.

Lemma nul_free_app (s1 s2 : string) :
  nul_free (s1 +:+ s2) = nul_free s1 && nul_free s2.
Proof.
  induction s1 as [|c s1 IH]; simpl; [done |].
  rewrite IH. by rewrite !andb_assoc.
Qed.

(** Outside quotes a plain string leaves the state alone, and so it does
    inside single quotes; it holds no NUL. *)
Lemma shlex_run_plain (s : string) :
  plain s = true ->
  shlex_run ShPlain s = ShPlain /\ shlex_run ShSingle s = ShSingle
  /\ nul_free s = true.
Proof.
  induction s as [|c s IH]; simpl; [done |].
  intros H. apply andb_prop in H as [H Hs].
  apply andb_prop in H as [H Hz]. apply andb_prop in H as [H Hb].
  apply andb_prop in H as [Hq Hd].
  rewrite Hz. apply negb_true_iff in Hq, Hd, Hb. rewrite Hq, Hd, Hb.
  by apply IH.
Qed.

Lemma plain_runnable (s : string) : plain s = true -> runnable s = true.
Proof.
  intros H. unfold runnable, shlex_ok.
  by destruct (shlex_run_plain s H) as (-> & _ & ->).
Qed.

Lemma plain_pretty_N_go (x : N) (s : string) :
  plain s = true -> plain (pretty_N_go x s) = true.
Proof.
  revert s. induction (N.lt_wf_0 x) as [x _ IH]; intros s Hs.
  assert (x = 0 \/ 0 < x)%N as [-> | Hx] by lia.
  - by rewrite pretty_N_go_0.
  - rewrite pretty_N_go_step by done. apply IH.
    + by apply N.div_lt.
    + simpl. rewrite Hs. unfold pretty_N_char. by repeat case_match.
Qed.

Lemma plain_pretty_Z (z : Z) : plain (pretty z) = true.
Proof.
  assert (HN : forall p : positive, plain (pretty p) = true).
  { intros p. unfold pretty, pretty_positive, pretty, pretty_N.
    case_decide; [done |]. by apply plain_pretty_N_go. }
  destruct z as [|p|p]; [done | apply HN |].
  unfold pretty, pretty_Z. rewrite plain_app. simpl. apply HN.
Qed.

Lemma plain_batch_parts (ws_list : list Z) :
  plain (String.concat "; "
           (map (fun ws => "dispatch workspace " +:+ pretty ws) ws_list))
  = true.
Proof.
  induction ws_list as [|ws rest IH]; [done |].
  assert (Hp : plain ("dispatch workspace " +:+ pretty ws) = true)
    by (rewrite plain_app, plain_pretty_Z; done).
  destruct rest as [|ws' rest]; [exact Hp |].
  change (plain (("dispatch workspace " +:+ pretty ws)
                 +:+ "; " +:+ String.concat "; "
                       (map (fun ws => "dispatch workspace " +:+ pretty ws)
                          (ws' :: rest))) = true).
  rewrite plain_app, Hp, plain_app, IH. done.
Qed.

(** The batch command of the prewarm step can always be run: workspace
    numbers hold no quote and no NUL. *)
Lemma batch_cmd_runnable (ws_list : list Z) : runnable (batch_cmd ws_list) = true.
Proof.
  destruct (shlex_run_plain _ (plain_batch_parts ws_list)) as (_ & Hq & Hn).
  unfold runnable, shlex_ok, batch_cmd.
  rewrite !shlex_run_app, !nul_free_app, Hn.
  change (shlex_run ShPlain "hyprctl --batch '") with ShSingle.
  by rewrite Hq.
Qed.

Lemma run_splits {clk : Clock} (cmdline : string) :
  runnable cmdline = true -> run cmdline = emit (EvRun cmdline).
Proof. unfold run. by intros ->. Qed.

Lemma hypr_clients_fetched {re : ReEngine} {clk : Clock}
    (source : World -> list window) (w : World) :
  hypr_clients source w = (Ret (source w), fetched w).
Proof. done. Qed.

(* ===================================================================== *)
(** ** The waiter *)
(* ===================================================================== *)

(** The first poll of a rule whose timeout has not run out returns what
    the scan of that snapshot returns. *)
Lemma wait_first_poll_hit {re : ReEngine} {clk : Clock}
    (source : World -> list window)
    (fuel : nat) (class_regex0 : string) (p : pattern) (timeout poll_ms : Z)
    (w : World) (a : option string) :
  re_compile class_regex0 = Some p ->
  0 < timeout ->
  scan_clients p (source w) = Some a ->
  wait_for_window source (S fuel) class_regex0 timeout poll_ms w
  = (Ret a, fetched w).
Proof.
  intros Hp Ht Hscan. unfold wait_for_window. rewrite Hp.
  unfold bind at 1, time_time. simpl.
  destruct (now w - now w <? timeout * 1000) eqn:E; [| lia].
  unfold bind. rewrite hypr_clients_fetched. by rewrite Hscan.
Qed.

(** [search] looks for the pattern anywhere in the class; it is not a full
    match. *)
Example search_is_not_full_match :
  re_compile "term" = Some
    (map (fun c => PyReFragment.One (PyReFragment.Lit c)) ["t"; "e"; "r"; "m"]%char)
  /\ re_search
       (map (fun c => PyReFragment.One (PyReFragment.Lit c))
          ["t"; "e"; "r"; "m"]%char : @pattern PyRe)
       "xterm-256" = true
  /\ re_search kitty_pat "xterm" = false.
Proof. by vm_compute. Qed.

(** C1 (as amended).  The scan of a snapshot returns the [address] field of
    the first window, in snapshot order, whose class is matched by
    [pat.search]; it runs through exactly when no window matches.  A window
    whose [class] is missing or empty is matched as the empty string, so it
    matches exactly the patterns that match the empty string, and the empty
    pattern matches every window.  The waiter hands the scan's answer on:
    a poll made before the deadline that finds a match returns it without
    sleeping. *)
Theorem scan_returns_first_match {re : ReEngine} {clk : Clock} (pat : pattern)
    (ws : list window) :
  (forall a, scan_clients pat ws = Some a <->
     exists pre c post,
       ws = pre ++ c :: post
       /\ Forall (fun c' => re_search pat (class_of c') = false) pre
       /\ re_search pat (class_of c) = true
       /\ a = c !! "address")
  /\ (scan_clients pat ws = None <->
      Forall (fun c => re_search pat (class_of c) = false) ws)
  /\ (forall c : window,
        c !! "class" = None \/ c !! "class" = Some "" ->
        class_of c = ""
        /\ re_search pat (class_of c) = re_search pat "")
  /\ (forall p0 (c : window),
        re_compile "" = Some p0 -> re_search p0 (class_of c) = true)
  /\ (forall source fuel class_regex0 timeout poll_ms w a,
        re_compile class_regex0 = Some pat ->
        0 < timeout ->
        source w = ws ->
        scan_clients pat ws = Some a ->
        wait_for_window source (S fuel) class_regex0 timeout poll_ms w
        = (Ret a, fetched w)).
Proof.
  split; [| split; [| split; [| split]]].
  - intros a. apply scan_clients_some.
  - apply scan_clients_none.
  - intros c Hc. by rewrite (class_of_missing c Hc).
  - intros p0 c Hp0. by apply re_search_empty.
  - intros source fuel class_regex0 timeout poll_ms w a Hp Ht <- Hscan.
    by apply wait_first_poll_hit with (p := pat).
Qed.

Lemma scan_returns_first_match_witness :
  scan_clients kitty_pat [anon_win; kitty_win] = Some (Some "0x1")
  /\ wait_for_window (fun _ => [anon_win; kitty_win]) 1 "kitty" 20 200 w0
     = (Ret (Some "0x1"), {| now := 0; trace := [EvRun clients_cmd] |}).
Proof.
  destruct (scan_returns_first_match kitty_pat [anon_win; kitty_win])
    as (Hsome & _ & _ & _ & Hwait).
  assert (Hscan : scan_clients kitty_pat [anon_win; kitty_win]
                  = Some (Some "0x1")).
  { apply Hsome. exists [anon_win], kitty_win, [].
    split; [reflexivity |]. split; [| split].
    - constructor; [vm_compute; reflexivity | constructor].
    - vm_compute. reflexivity.
    - vm_compute. reflexivity. }
  split; [exact Hscan |].
  apply (Hwait (fun _ => [anon_win; kitty_win]) 0%nat "kitty" 20 200 w0).
  - reflexivity.
  - lia.
  - reflexivity.
  - exact Hscan.
Defined.

(** C1, the claim as written fails: [.*] is a non-empty pattern, and it
    matches a window that reports no class at all. *)
Lemma nonempty_pattern_matches_missing_class :
  exists p : pattern,
    re_compile ".*" = Some p
    /\ ".*" <> ""
    /\ anon_win !! "class" = None
    /\ re_search p (class_of anon_win) = true
    /\ scan_clients p [anon_win] = Some (Some "0x2").
Proof.
  exists dot_star_pat.
  repeat split; [done | by vm_compute..].
Qed.

(* ===================================================================== *)
(** ** Histories only grow *)
(* ===================================================================== *)

Section Emits.

Context {clk : Clock} {A B : Type} (P : event -> Prop).

Lemma emits_ret (a : A) : emits P (ret a).
Proof. intros w. exists []. by rewrite app_nil_r. Qed.

Lemma emits_raise (e : exn) : emits P (@raise A e).
Proof. intros w. exists []. by rewrite app_nil_r. Qed.

Lemma emits_lift (o : outcome A) : emits P (lift o).
Proof. intros w. exists []. by rewrite app_nil_r. Qed.

Lemma emits_emit (e : event) : P e -> emits P (emit e).
Proof. intros He w. exists [e]. split; [done | by constructor]. Qed.

Lemma emits_run (cmdline : string) : P (EvRun cmdline) -> emits P (run cmdline).
Proof.
  intros He. unfold run.
  destruct (runnable cmdline); [by apply emits_emit |].
  intros w. exists []. by rewrite app_nil_r.
Qed.

Lemma emits_bind (m : prog A) (k : A -> prog B) :
  emits P m -> (forall a, emits P (k a)) -> emits P (bind m k).
Proof.
  intros Hm Hk w. unfold bind.
  destruct (Hm w) as (e1 & Ht1 & HP1).
  destruct (m w) as [[a | e | |] w1]; simpl in *;
    try (by exists e1).
  destruct (Hk a w1) as (e2 & Ht2 & HP2).
  exists (e1 ++ e2). rewrite Ht2, Ht1, app_assoc.
  split; [done | by apply Forall_app].
Qed.

End Emits.

Lemma emits_time_sleep {clk : Clock} (P : event -> Prop) (ms : Z) :
  P (EvSleep ms) -> emits P (time_sleep ms).
Proof.
  intros HP w. unfold time_sleep.
  destruct (sleep_over <=? Z.abs ms); simpl;
    [exists []; by rewrite app_nil_r |].
  destruct (sleep_sure <? Z.abs ms); simpl;
    [exists []; by rewrite app_nil_r |].
  destruct (ms <? 0); simpl.
  - exists []. by rewrite app_nil_r.
  - exists [EvSleep ms]. split; [done | by constructor].
Qed.

Lemma emits_time_time {clk : Clock} (P : event -> Prop) : emits P time_time.
Proof. intros w. exists []. by rewrite app_nil_r. Qed.

Create HintDb emits.
#[local] Hint Resolve emits_ret emits_raise emits_lift emits_emit emits_run
  emits_bind emits_time_sleep emits_time_time : emits.
#[local] Hint Constructors rule_event : emits.

Section RuleEvents.

Context {re : ReEngine} {clk : Clock} (source : World -> list window).

Lemma emits_hypr_clients (P : event -> Prop) :
  P (EvRun clients_cmd) -> emits P (hypr_clients source).
Proof.
  intros HP w. exists [EvRun clients_cmd]. split; [done | by constructor].
Qed.

Lemma emits_wait_loop (P : event -> Prop) (fuel : nat) (pat : pattern)
    (t0 timeout poll_ms : Z) :
  P (EvRun clients_cmd) -> P (EvSleep poll_ms) ->
  emits P (wait_loop source fuel pat t0 timeout poll_ms).
Proof.
  intros Hf Hs. induction fuel as [|fuel IH]; intros w; simpl;
    destruct (now w - t0 <? timeout * 1000);
    try (exists []; by rewrite app_nil_r).
  apply emits_bind; [by apply emits_hypr_clients |].
  intros clients. destruct (scan_clients pat clients); eauto with emits.
Qed.

Lemma emits_wait_for_window (P : event -> Prop) (fuel : nat)
    (class_regex0 : string) (timeout poll_ms : Z) :
  P (EvRun clients_cmd) -> P (EvSleep poll_ms) ->
  emits P (wait_for_window source fuel class_regex0 timeout poll_ms).
Proof.
  intros Hf Hs. unfold wait_for_window.
  destruct (re_compile class_regex0); [| by apply emits_raise].
  apply emits_bind; [by apply emits_time_time |].
  intros t0. by apply emits_wait_loop.
Qed.

Lemma emits_place (dry_run : bool) (addr : string) (rule : AppRule) :
  emits (rule_event dry_run) (place dry_run addr rule).
Proof.
  unfold place. destruct dry_run; [by apply emits_ret |].
  unfold move_to_workspace, move_to_monitor, dispatch.
  apply emits_bind; [eauto with emits |].
  intros _. destruct (opt_str_truthy (monitor rule)); eauto 6 with emits.
Qed.

Lemma emits_process_rule (fuel : nat) (g : GeneralCfg) (dry_run : bool)
    (rule : AppRule) :
  emits (rule_event dry_run) (process_rule source fuel g dry_run rule).
Proof.
  unfold process_rule, print_out, print_err, spawn.
  apply emits_bind; [eauto with emits |]. intros _.
  apply emits_bind; [destruct dry_run; eauto with emits |]. intros _.
  apply emits_bind; [apply emits_wait_for_window; constructor |].
  intros addr. destruct (opt_str_truthy addr); [| eauto with emits].
  apply emits_bind; [eauto with emits |]. intros _. apply emits_place.
Qed.

Lemma emits_for_rules (fuel : nat) (g : GeneralCfg) (dry_run : bool)
    (rules : list AppRule) :
  emits (rule_event dry_run) (for_rules source fuel g dry_run rules).
Proof.
  induction rules as [|rule rest IH]; simpl; [by apply emits_ret |].
  apply emits_bind; [apply emits_process_rule | done].
Qed.

End RuleEvents.

Lemma prewarm_runs {clk : Clock} (ws_list : list Z) (w : World) :
  exists w1,
    prewarm ws_list w = (Ret tt, w1)
    /\ trace w1 = trace w ++ prewarm_events ws_list.
Proof.
  destruct ws_list as [|ws rest].
  - exists w. simpl. by rewrite app_nil_r.
  - unfold prewarm. rewrite run_splits by apply batch_cmd_runnable.
    eexists. by split.
Qed.

Lemma orchestrate_after_prewarm {re : ReEngine} {clk : Clock}
    (source : World -> list window)
    (fuel : nat) (cfg : Config) (dry_run : bool) (w w1 : World) :
  prewarm (prewarm_workspaces (general cfg)) w = (Ret tt, w1) ->
  orchestrate source fuel cfg dry_run w
  = (for_rules source fuel (general cfg) dry_run (apps cfg) ;;; ret 0) w1.
Proof. intros H. unfold orchestrate. unfold bind at 1. by rewrite H. Qed.

Lemma rule_event_not_batch (dry_run : bool) (e : event) :
  rule_event dry_run e -> is_batch e = false.
Proof. by intros []. Qed.

Lemma dry_rule_event (e : event) :
  rule_event true e -> is_spawn e = false /\ is_dispatch e = false.
Proof. by intros []. Qed.

(** C3 (as amended).  With a timeout of zero or less the waiter leaves the
    world as it found it: no snapshot is fetched, so the window check is
    skipped altogether, nothing sleeps, the clock does not move, and the
    answer does not depend on the window source or on the fuel; with a
    pattern that compiles it is [None] (not found).  A positive timeout, by
    contrast, always begins with a snapshot fetch. *)
Theorem nonpositive_timeout_returns_at_once {re : ReEngine} {clk : Clock}
    (source : World -> list window) (fuel : nat) (class_regex : string)
    (timeout poll_ms : Z) (w : World) :
  timeout <= 0 ->
  snd (wait_for_window source fuel class_regex timeout poll_ms w) = w
  /\ (is_Some (re_compile class_regex) ->
      wait_for_window source fuel class_regex timeout poll_ms w = (Ret None, w))
  /\ (forall source' fuel',
        wait_for_window source' fuel' class_regex timeout poll_ms w
        = wait_for_window source fuel class_regex timeout poll_ms w)
  /\ (forall fuel' timeout',
        is_Some (re_compile class_regex) ->
        0 < timeout' ->
        exists rest,
          trace (snd (wait_for_window source (S fuel') class_regex timeout'
                        poll_ms w))
          = trace w ++ EvRun clients_cmd :: rest).
Proof.
  intros Ht.
  assert (Hloop : forall src fl p,
    wait_loop src fl p (now w) timeout poll_ms w = (Ret None, w)).
  { intros src fl p. destruct fl; simpl;
      (destruct (now w - now w <? timeout * 1000) eqn:E; [lia | done]). }
  assert (Hany : forall src fl,
    wait_for_window src fl class_regex timeout poll_ms w
    = match re_compile class_regex with
      | Some _ => (Ret None, w)
      | None => (Raise ReError, w)
      end).
  { intros src fl. unfold wait_for_window.
    destruct (re_compile class_regex) as [p|]; [| done].
    unfold bind, time_time. apply Hloop. }
  split; [| split; [| split]].
  - rewrite Hany. by destruct (re_compile class_regex).
  - intros [p Hp]. by rewrite Hany, Hp.
  - intros source' fuel'. by rewrite !Hany.
  - intros fuel' timeout' [p Hp] Ht'. unfold wait_for_window. rewrite Hp.
    unfold bind at 1, time_time. simpl.
    destruct (now w - now w <? timeout' * 1000) eqn:E; [| lia].
    unfold bind at 1. rewrite hypr_clients_fetched.
    destruct (scan_clients p (source w)); [by exists [] |].
    assert (Hem : emits (fun _ => True)
                    (time_sleep poll_ms ;;;
                     wait_loop source fuel' p (now w) timeout' poll_ms)).
    { apply emits_bind; [by apply emits_time_sleep |].
      intros _. by apply emits_wait_loop. }
    destruct (Hem (fetched w)) as (evs & Hevs & _).
    exists evs. rewrite Hevs. simpl. by rewrite <- app_assoc.
Qed.

Lemma nonpositive_timeout_witness :
  snd (wait_for_window always_kitty 3 "kitty" 0 200 w0) = w0
  /\ (is_Some (re_compile "kitty") ->
      wait_for_window always_kitty 3 "kitty" 0 200 w0 = (Ret None, w0))
  /\ (forall source' fuel',
        wait_for_window source' fuel' "kitty" 0 200 w0
        = wait_for_window always_kitty 3 "kitty" 0 200 w0)
  /\ (forall fuel' timeout',
        is_Some (re_compile "kitty") ->
        0 < timeout' ->
        exists rest,
          trace (snd (wait_for_window always_kitty (S fuel') "kitty" timeout'
                        200 w0))
          = trace w0 ++ EvRun clients_cmd :: rest).
Proof.
  apply (nonpositive_timeout_returns_at_once always_kitty 3 "kitty" 0 200 w0).
  lia.
Defined.

(** C3, the claim as written fails: with a timeout of 0 the waiter does
    skip the check entirely.  The window system reports a window that
    matches, yet no snapshot is fetched and the answer is not found. *)
Lemma nonpositive_timeout_skips_the_check :
  scan_clients kitty_pat (always_kitty w0) = Some (Some "0x1")
  /\ wait_for_window always_kitty 3 "kitty" 0 200 w0 = (Ret None, w0)
  /\ fetches (trace (snd (wait_for_window always_kitty 3 "kitty" 0 200 w0)))
     = 0%nat.
Proof. by vm_compute. Qed.

(** C8.  When [re.compile] rejects the pattern, the waiter raises
    [re.error] in the world it was called in (nothing was polled), and its
    caller passes the exception on: the rule stops after its launch, no
    warning is printed and no later rule is processed. *)
Theorem invalid_pattern_is_raised {re : ReEngine} {clk : Clock}
    (source : World -> list window) (fuel : nat) (class_regex0 : string)
    (timeout poll_ms : Z) (w : World) :
  re_compile class_regex0 = None ->
  wait_for_window source fuel class_regex0 timeout poll_ms w = (Raise ReError, w)
  /\ (forall g dry_run rule rest,
        class_regex rule = class_regex0 ->
        process_rule source fuel g dry_run rule w
          = (Raise ReError, launched dry_run rule w)
        /\ for_rules source fuel g dry_run (rule :: rest) w
          = (Raise ReError, launched dry_run rule w)).
Proof.
  intros Hbad. split.
  - unfold wait_for_window. by rewrite Hbad.
  - intros g dry_run rule rest <-.
    assert (Hrule : process_rule source fuel g dry_run rule w
                    = (Raise ReError, launched dry_run rule w)).
    { unfold process_rule, wait_for_window. rewrite Hbad.
      by destruct dry_run. }
    split; [done |]. simpl. unfold bind at 1. by rewrite Hrule.
Qed.

Lemma invalid_pattern_witness :
  wait_for_window no_windows 5 "*" 20 200 w0 = (Raise ReError, w0)
  /\ (forall g dry_run rule rest,
        class_regex rule = "*" ->
        process_rule no_windows 5 g dry_run rule w0
          = (Raise ReError, launched dry_run rule w0)
        /\ for_rules no_windows 5 g dry_run (rule :: rest) w0
          = (Raise ReError, launched dry_run rule w0)).
Proof.
  apply (invalid_pattern_is_raised no_windows 5 "*" 20 200 w0).
  reflexivity.
Defined.


(* ===================================================================== *)
(** ** One rule *)
(* ===================================================================== *)

(** A rule is its launch followed by the wait and what is done with the
    waiter's answer. *)
Lemma process_rule_launched {re : ReEngine} {clk : Clock}
    (source : World -> list window)
    (fuel : nat) (g : GeneralCfg) (dry_run : bool) (rule : AppRule)
    (w : World) :
  process_rule source fuel g dry_run rule w
  = (addr <- wait_for_window source fuel (class_regex rule)
               (opt_int_or (timeout_s rule) (default_timeout_s g))
               (poll_interval_ms g) ;;
     if opt_str_truthy addr then
       print_out (found_line (default "" addr) rule) ;;;
       place dry_run (default "" addr) rule
     else print_err (warn_line rule)) (launched dry_run rule w).
Proof. by destruct dry_run. Qed.


(** C4, the code at the failing input.  A rule that sets its timeout to 0
    does not wait 0 seconds: [rule.timeout_s or default] takes the general
    default (20 here), so the rule polls and places the window, where a
    wait of 0 seconds fetches nothing and finds nothing.  Any other
    override is used as it is, and the default is used when there is
    none. *)
Theorem zero_timeout_override_falls_back_to_default :
  opt_int_or (timeout_s zero_rule) (default_timeout_s sample_general) = 20
  /\ process_rule always_kitty 1 sample_general false zero_rule w0
     = (Ret tt,
        {| now := 0;
           trace := [EvStdout "[dbj] launching: term -> ws2";
                     EvSpawn "kitty";
                     EvRun "hyprctl -j clients";
                     EvStdout "[dbj] found window 0x1 for term, moving to ws2";
                     EvRun "hyprctl dispatch movetoworkspace 2 address:0x1"] |})
  /\ wait_for_window always_kitty 1 "kitty" 0 200 w0 = (Ret None, w0)
  /\ (forall z d, z <> 0 -> opt_int_or (Some z) d = z)
  /\ (forall d, opt_int_or (Some 0) d = d)
  /\ (forall d, opt_int_or None d = d).
Proof.
  split; [by vm_compute |]. split; [by vm_compute |]. split; [by vm_compute |].
  split; [| by split].
  intros z d Hz. unfold opt_int_or, opt_int_truthy.
  destruct (z =? 0) eqn:E; [lia | done].
Qed.

(* ===================================================================== *)
(** ** The run: prewarm and dry run *)
(* ===================================================================== *)

(** C7.  A run first performs the prewarm step, whatever [dry_run] is:
    nothing when [prewarm_workspaces] is empty, otherwise the single command
    [hyprctl --batch '...'] that lists one [dispatch workspace] per entry,
    in the order of the list.  Everything that follows comes from the rules,
    and none of it is a batch command. *)
Theorem prewarm_once_before_the_rules {re : ReEngine} {clk : Clock}
    (source : World -> list window) (fuel : nat) (cfg : Config)
    (dry_run : bool) (w : World) :
  let pw := prewarm_workspaces (general cfg) in
  exists w1 rest,
    prewarm pw w = (Ret tt, w1)
    /\ trace w1 = trace w ++ prewarm_events pw
    /\ orchestrate source fuel cfg dry_run w
       = (for_rules source fuel (general cfg) dry_run (apps cfg) ;;; ret 0) w1
    /\ trace (snd (orchestrate source fuel cfg dry_run w))
       = trace w ++ prewarm_events pw ++ rest
    /\ Forall (fun e => is_batch e = false) rest
    /\ (pw = [] -> prewarm_events pw = [])
    /\ (pw <> [] ->
        prewarm_events pw
        = [EvRun ("hyprctl --batch '"
                  +:+ String.concat "; "
                        (map (fun ws => "dispatch workspace " +:+ pretty ws) pw)
                  +:+ "'")]
        /\ Forall (fun e => is_batch e = true) (prewarm_events pw)).
Proof.
  intros pw.
  destruct (prewarm_runs pw w) as (w1 & Hpre & Htr).
  pose proof (orchestrate_after_prewarm source fuel cfg dry_run w w1 Hpre) as Horch.
  assert (Hem : emits (rule_event dry_run)
                  (for_rules source fuel (general cfg) dry_run (apps cfg) ;;; ret 0)).
  { apply emits_bind; [apply emits_for_rules | intros _; apply emits_ret]. }
  destruct (Hem w1) as (rest & Hrest & HP).
  exists w1, rest. repeat split; try done.
  - by rewrite Horch, Hrest, Htr, <- app_assoc.
  - eapply Forall_impl; [exact HP | apply rule_event_not_batch].
  - by intros ->.
  - by destruct pw.
  - destruct pw; [done |]. by repeat constructor.
Qed.

Lemma prewarm_once_witness :
  exists rest,
    trace (snd (orchestrate no_windows 5 half_second_cfg true w0))
    = [EvRun "hyprctl --batch 'dispatch workspace 3; dispatch workspace 5'"]
      ++ rest
    /\ Forall (fun e => is_batch e = false) rest.
Proof.
  destruct (prewarm_once_before_the_rules no_windows 5 half_second_cfg true w0)
    as (w1 & rest & _ & _ & _ & Htrace & Hrest & _ & Hbatch).
  exists rest. split; [| exact Hrest].
  destruct Hbatch as [Hev _]; [discriminate |].
  rewrite Htrace. reflexivity.
Defined.

(** C2 (as amended).  A dry run performs the prewarm step and then, for the
    rules, launches no process and dispatches no placement command.  (The
    waiter is still run for every rule: snapshots are fetched and the loop
    sleeps.) *)
Theorem dry_run_launches_and_places_nothing {re : ReEngine} {clk : Clock}
    (source : World -> list window) (fuel : nat) (cfg : Config) (w : World) :
  exists rest,
    trace (snd (orchestrate source fuel cfg true w))
    = trace w ++ prewarm_events (prewarm_workspaces (general cfg)) ++ rest
    /\ Forall (fun e => is_spawn e = false /\ is_dispatch e = false) rest
    /\ (forall g rule w',
          process_rule source fuel g true rule w'
          = (addr <- wait_for_window source fuel (class_regex rule)
                       (opt_int_or (timeout_s rule) (default_timeout_s g))
                       (poll_interval_ms g) ;;
             if opt_str_truthy addr then
               print_out (found_line (default "" addr) rule)
             else print_err (warn_line rule))
              (launched true rule w')).
Proof.
  destruct (prewarm_runs (prewarm_workspaces (general cfg)) w)
    as (w1 & Hpre & Htr).
  pose proof (orchestrate_after_prewarm source fuel cfg true w w1 Hpre) as Horch.
  assert (Hem : emits (rule_event true)
                  (for_rules source fuel (general cfg) true (apps cfg) ;;; ret 0)).
  { apply emits_bind; [apply emits_for_rules | intros _; apply emits_ret]. }
  destruct (Hem w1) as (rest & Hrest & HP).
  exists rest. split; [| split].
  - by rewrite Horch, Hrest, Htr, <- app_assoc.
  - eapply Forall_impl; [exact HP | apply dry_rule_event].
  - intros g rule w'. rewrite process_rule_launched.
    unfold bind.
    destruct (wait_for_window _ _ _ _ _ _) as [[addr | | |] w2]; [| done..].
    by destruct (opt_str_truthy addr).
Qed.

(** C2, the claim as written fails: in a dry run with no window in sight
    the waiter polls until the timeout, here twice in one second. *)
Lemma dry_run_still_polls :
  orchestrate no_windows 5 half_second_cfg true w0
  = (Ret 0,
     {| now := 1000;
        trace :=
          [EvRun "hyprctl --batch 'dispatch workspace 3; dispatch workspace 5'";
           EvStdout "[dbj] launching: term -> ws2";
           EvRun "hyprctl -j clients"; EvSleep 500;
           EvRun "hyprctl -j clients"; EvSleep 500;
           EvStderr "[dbj][WARN] timeout esperando ventana de 'term' (regex=kitty)"] |})
  /\ fetches (trace (snd (orchestrate no_windows 5 half_second_cfg true w0)))
     = 2%nat.
Proof. split; by vm_compute. Qed.

(* ===================================================================== *)
(** ** The run: rule after rule *)
(* ===================================================================== *)

Lemma bind_assoc {A B C} (m : prog A) (k : A -> prog B) (k' : B -> prog C)
    (w : World) :
  bind (bind m k) k' w = bind m (fun a => bind (k a) k') w.
Proof. unfold bind. by destruct (m w) as [[| | |] ?]. Qed.

Lemma bind_ext {A B} (m : prog A) (k k' : A -> prog B) (w : World) :
  (forall a w', k a w' = k' a w') -> bind m k w = bind m k' w.
Proof. intros H. unfold bind. by destruct (m w) as [[| | |] ?]. Qed.

Section Sequencing.

Context {re : ReEngine} {clk : Clock} (source : World -> list window).
Context (fuel : nat) (g : GeneralCfg) (dry_run : bool).

Lemma for_rules_app (l1 l2 : list AppRule) (w : World) :
  for_rules source fuel g dry_run (l1 ++ l2) w
  = (for_rules source fuel g dry_run l1 ;;;
     for_rules source fuel g dry_run l2) w.
Proof.
  revert w. induction l1 as [|r l1 IH]; intros w; simpl; [done |].
  rewrite bind_assoc. apply bind_ext. intros _ w'. apply IH.
Qed.

Lemma for_rules_step (r : AppRule) (rest : list AppRule) (w wi : World)
    (oi : outcome unit) :
  process_rule source fuel g dry_run r w = (oi, wi) ->
  (for_rules source fuel g dry_run (r :: rest) ;;; ret 0) w
  = match oi with
    | Ret _ => (for_rules source fuel g dry_run rest ;;; ret 0) wi
    | Raise e => (Raise e, wi)
    | OutOfFuel => (OutOfFuel, wi)
    | OutsideModel => (OutsideModel, wi)
    end.
Proof.
  intros H. simpl. rewrite bind_assoc. unfold bind at 1. rewrite H.
  by destruct oi.
Qed.

Lemma process_rule_segment (r : AppRule) (w : World) :
  exists oa wa seg,
    wait_for_window source fuel (class_regex r)
      (opt_int_or (timeout_s r) (default_timeout_s g))
      (poll_interval_ms g) (launched dry_run r w) = (oa, wa)
    /\ (exists polls,
          trace wa = trace w ++ EvStdout (launch_line r)
                       :: (if dry_run then [] else [EvSpawn (cmd r)]) ++ polls)
    /\ trace (snd (process_rule source fuel g dry_run r w)) = trace wa ++ seg.
Proof.
  set (m := wait_for_window source fuel (class_regex r)
              (opt_int_or (timeout_s r) (default_timeout_s g))
              (poll_interval_ms g)).
  destruct (m (launched dry_run r w)) as [oa wa] eqn:Hm.
  assert (Hpolls : emits (fun _ => True) m)
    by (by apply emits_wait_for_window).
  destruct (Hpolls (launched dry_run r w)) as (polls & Hp & _).
  rewrite Hm, launched_trace in Hp; simpl in Hp.
  rewrite process_rule_launched. fold m. unfold bind at 1. rewrite Hm.
  exists oa, wa.
  destruct oa as [addr | e | |];
    try (exists []; split; [done |];
         split; [exists polls; by rewrite Hp, <- app_assoc
                | by rewrite app_nil_r]).
  assert (Hk : emits (rule_event dry_run)
                 (if opt_str_truthy addr
                  then print_out (found_line (default "" addr) r) ;;;
                       place dry_run (default "" addr) r
                  else print_err (warn_line r))).
  { destruct (opt_str_truthy addr).
    - apply emits_bind; [apply emits_emit; constructor |].
      intros _. apply emits_place.
    - apply emits_emit. constructor. }
  destruct (Hk wa) as (seg & Hseg & _).
  exists seg. split; [done |]. split; [| done].
  exists polls. by rewrite Hp, <- app_assoc.
Qed.

End Sequencing.

Lemma orchestrate_split {re : ReEngine} {clk : Clock} (source : World -> list window)
    (fuel : nat) (cfg : Config) (dry_run : bool) (pre rest : list AppRule)
    (w w1 : World) :
  apps cfg = pre ++ rest ->
  (prewarm (prewarm_workspaces (general cfg)) ;;;
   for_rules source fuel (general cfg) dry_run pre) w = (Ret tt, w1) ->
  orchestrate source fuel cfg dry_run w
  = (for_rules source fuel (general cfg) dry_run rest ;;; ret 0) w1.
Proof.
  intros Happs Hpre.
  destruct (prewarm_runs (prewarm_workspaces (general cfg)) w)
    as (w' & Hp & _).
  unfold bind at 1 in Hpre. rewrite Hp in Hpre.
  rewrite (orchestrate_after_prewarm _ _ _ _ _ _ Hp), Happs.
  unfold bind at 1. rewrite for_rules_app. unfold bind at 1.
  by rewrite Hpre.
Qed.

(** C6.  Rules are processed in the order of [cfg.apps].  Take two rules
    that follow each other in the list, and a run that reaches the first of
    them in world [w1].  That rule's history is its launch line, its launch,
    the polls of its waiter up to the point where the wait resolved, and
    what was done with the answer.  If it ends normally, the next rule
    starts in the world it left, so every event of the next rule (its launch
    line first) comes after the first rule's wait has resolved; if it ends
    with an exception, the run ends there and the next rule issues
    nothing. *)
Theorem rules_run_in_declared_order {re : ReEngine} {clk : Clock}
    (source : World -> list window) (fuel : nat) (cfg : Config)
    (dry_run : bool) (w : World) (pre : list AppRule) (ri rj : AppRule)
    (post : list AppRule) (w1 : World) :
  let g := general cfg in
  apps cfg = pre ++ ri :: rj :: post ->
  (prewarm (prewarm_workspaces g) ;;;
   for_rules source fuel g dry_run pre) w = (Ret tt, w1) ->
  exists oa wa polls seg_i oi wi,
    wait_for_window source fuel (class_regex ri)
      (opt_int_or (timeout_s ri) (default_timeout_s g))
      (poll_interval_ms g) (launched dry_run ri w1) = (oa, wa)
    /\ trace wa = trace w1 ++ EvStdout (launch_line ri)
                    :: (if dry_run then [] else [EvSpawn (cmd ri)]) ++ polls
    /\ process_rule source fuel g dry_run ri w1 = (oi, wi)
    /\ trace wi = trace wa ++ seg_i
    /\ match oi with
       | Ret _ =>
           exists oj wj seg_j later,
             process_rule source fuel g dry_run rj wi = (oj, wj)
             /\ trace wj = trace wi ++ EvStdout (launch_line rj) :: seg_j
             /\ trace (snd (orchestrate source fuel cfg dry_run w))
                = trace wj ++ later
       | _ => snd (orchestrate source fuel cfg dry_run w) = wi
       end.
Proof.
  intros g Happs Hpre. unfold g in *. clear g. set (g := general cfg) in *.
  destruct (process_rule_segment source fuel g dry_run ri w1)
    as (oa & wa & seg_i & Hwait & (polls & Hpolls) & Hseg).
  destruct (process_rule source fuel g dry_run ri w1) as [oi wi] eqn:Hi.
  simpl in Hseg.
  exists oa, wa, polls, seg_i, oi, wi. repeat split; try done.
  rewrite (orchestrate_split source fuel cfg dry_run pre (ri :: rj :: post)
             w w1 Happs Hpre). fold g.
  rewrite (for_rules_step source fuel g dry_run ri (rj :: post) w1 wi oi Hi).
  destruct oi as [[] | e | |]; try done.
  destruct (process_rule_segment source fuel g dry_run rj wi)
    as (oa' & wa' & seg_j & _ & (polls' & Hpolls') & Hseg').
  destruct (process_rule source fuel g dry_run rj wi) as [oj wj] eqn:Hj.
  simpl in Hseg'.
  rewrite (for_rules_step source fuel g dry_run rj post wi wj oj Hj).
  assert (Hlater : emits (rule_event dry_run)
                     (for_rules source fuel g dry_run post ;;; ret 0)).
  { apply emits_bind; [apply emits_for_rules | intros _; apply emits_ret]. }
  destruct (Hlater wj) as (later & Hl & _).
  exists oj, wj,
    ((if dry_run then [] else [EvSpawn (cmd rj)]) ++ polls' ++ seg_j),
    (match oj with Ret _ => later | _ => [] end).
  split; [done |]. split.
  - rewrite Hseg', Hpolls'. rewrite <- !app_assoc. simpl.
    by rewrite <- !app_assoc.
  - destruct oj as [[] | e | |]; simpl; by rewrite ?app_nil_r.
Qed.

Lemma rules_run_in_declared_order_witness :
  exists oa wa polls seg_i oi wi,
    wait_for_window always_kitty 5 "kitty" 1 500
      (launched false kitty_rule w0) = (oa, wa)
    /\ trace wa = trace w0 ++ EvStdout (launch_line kitty_rule)
                    :: [EvSpawn "kitty"] ++ polls
    /\ process_rule always_kitty 5 (general two_rule_cfg) false kitty_rule w0
       = (oi, wi)
    /\ trace wi = trace wa ++ seg_i
    /\ match oi with
       | Ret _ =>
           exists oj wj seg_j later,
             process_rule always_kitty 5 (general two_rule_cfg) false
               second_rule wi = (oj, wj)
             /\ trace wj = trace wi ++ EvStdout (launch_line second_rule) :: seg_j
             /\ trace (snd (orchestrate always_kitty 5 two_rule_cfg false w0))
                = trace wj ++ later
       | _ => snd (orchestrate always_kitty 5 two_rule_cfg false w0) = wi
       end.
Proof.
  apply (rules_run_in_declared_order always_kitty 5 two_rule_cfg false w0
           [] kitty_rule second_rule [] w0).
  - reflexivity.
  - reflexivity.
Defined.


(* ===================================================================== *)
(** ** The passes of the waiter *)
(* ===================================================================== *)

Lemma time_sleep_in_range {clk : Clock} (ms : Z) (w : World) :
  0 <= ms <= sleep_sure ->
  time_sleep ms w
  = (Ret tt, {| now := now w + ms + lag w (EvSleep ms);
                trace := trace w ++ [EvSleep ms] |}).
Proof.
  intros H. unfold time_sleep, sleep_over, sleep_sure in *.
  destruct (10000000000000 <=? Z.abs ms) eqn:E1; [lia |].
  destruct (9000000000000 <? Z.abs ms) eqn:E2; [lia |].
  by destruct (ms <? 0) eqn:E3; [lia |].
Qed.

Lemma time_sleep_returned {clk : Clock} (ms : Z) (w w' : World) (u : unit) :
  time_sleep ms w = (Ret u, w') ->
  0 <= ms <= sleep_sure
  /\ w' = {| now := now w + ms + lag w (EvSleep ms);
             trace := trace w ++ [EvSleep ms] |}.
Proof.
  unfold time_sleep, sleep_over, sleep_sure.
  destruct (10000000000000 <=? Z.abs ms) eqn:E1; [done |].
  destruct (9000000000000 <? Z.abs ms) eqn:E2; [done |].
  destruct (ms <? 0) eqn:E3; [done |].
  intros [= <-]. split; [lia | done].
Qed.

Lemma fetches_app (t1 t2 : list event) :
  fetches (t1 ++ t2) = (fetches t1 + fetches t2)%nat.
Proof. unfold fetches. by rewrite List.filter_app, length_app. Qed.

Section Passes.

Context {clk : Clock}.

Lemma after_polls_add (j d : nat) (poll_ms : Z) (w : World) :
  after_polls (j + d) poll_ms w = after_polls d poll_ms (after_polls j poll_ms w).
Proof. revert w. induction j as [|j IH]; intros w; simpl; [done | apply IH]. Qed.

Lemma after_polls_now_ge (k : nat) (poll_ms : Z) (w : World) :
  now w + Z.of_nat k * poll_ms <= now (after_polls k poll_ms w).
Proof.
  revert w. induction k as [|k IH]; intros w; simpl; [lia |].
  specialize (IH (one_poll poll_ms w)). simpl in IH.
  pose proof (lag_nonneg w (EvRun clients_cmd)).
  pose proof (lag_nonneg (fetched w) (EvSleep poll_ms)). simpl in *. lia.
Qed.

Lemma after_polls_mono (j k : nat) (poll_ms : Z) (w : World) :
  0 <= poll_ms -> (j <= k)%nat ->
  now (after_polls j poll_ms w) <= now (after_polls k poll_ms w).
Proof.
  intros Hpoll Hjk. replace k with (j + (k - j))%nat by lia.
  rewrite after_polls_add.
  pose proof (after_polls_now_ge (k - j) poll_ms (after_polls j poll_ms w)).
  nia.
Qed.

(** Each pass moves the clock when the interval is positive or a fetch
    takes time. *)
Lemma after_polls_progress (k : nat) (poll_ms : Z) (w : World) :
  0 <= poll_ms ->
  0 < poll_ms \/ (forall w1, 0 < lag w1 (EvRun clients_cmd)) ->
  now w + Z.of_nat k <= now (after_polls k poll_ms w).
Proof.
  intros Hpoll Hmove. revert w. induction k as [|k IH]; intros w; simpl; [lia |].
  specialize (IH (one_poll poll_ms w)). simpl in IH.
  pose proof (lag_nonneg w (EvRun clients_cmd)).
  pose proof (lag_nonneg (fetched w) (EvSleep poll_ms)). simpl in *.
  destruct Hmove as [Hp | Hl]; [lia |]. specialize (Hl w). lia.
Qed.

Lemma after_polls_trace (k : nat) (poll_ms : Z) (w : World) :
  trace (after_polls k poll_ms w)
  = trace w ++ List.concat (replicate k [EvRun clients_cmd; EvSleep poll_ms]).
Proof.
  revert w. induction k as [|k IH]; intros w; simpl;
    [by rewrite app_nil_r |].
  rewrite IH. simpl. by rewrite <- !app_assoc.
Qed.

Lemma after_polls_fetches (k : nat) (poll_ms : Z) (w : World) :
  fetches (trace (after_polls k poll_ms w)) = (fetches (trace w) + k)%nat.
Proof.
  revert w. induction k as [|k IH]; intros w; simpl; [lia |].
  rewrite IH. simpl. rewrite !fetches_app. simpl. unfold fetches at 2 3.
  simpl. lia.
Qed.

End Passes.

Section Waiter.

Context {re : ReEngine} {clk : Clock} (source : World -> list window).

(** What an answer of the loop means. *)
Lemma wait_loop_answer (p : pattern) (t0 timeout poll_ms : Z) :
  forall (fuel : nat) (w w' : World) (a : option string),
    wait_loop source fuel p t0 timeout poll_ms w = (Ret a, w') ->
    exists k : nat,
      (forall j, (j < k)%nat ->
         now (after_polls j poll_ms w) - t0 < timeout * 1000
         /\ scan_clients p (source (after_polls j poll_ms w)) = None)
      /\ ((now (after_polls k poll_ms w) - t0 < timeout * 1000
           /\ scan_clients p (source (after_polls k poll_ms w)) = Some a
           /\ w' = fetched (after_polls k poll_ms w))
          \/ (timeout * 1000 <= now (after_polls k poll_ms w) - t0
              /\ a = None
              /\ w' = after_polls k poll_ms w)).
Proof.
  induction fuel as [|fuel IH]; intros w w' a; simpl;
    destruct (now w - t0 <? timeout * 1000) eqn:E; try done.
  - intros [= <- <-]. exists 0%nat. split; [lia |]. right. simpl.
    split; [lia | done].
  - unfold bind at 1. rewrite hypr_clients_fetched.
    destruct (scan_clients p (source w)) as [a0|] eqn:Hscan.
    + intros [= <- <-]. exists 0%nat. split; [lia |]. left. simpl.
      split; [lia | done].
    + unfold bind at 1.
      destruct (time_sleep poll_ms (fetched w)) as [[[] | e | |] w1] eqn:Hs;
        try done.
      apply time_sleep_returned in Hs as [_ ->].
      intros H. apply IH in H as (k & Hbefore & Hend).
      exists (S k). split; [| exact Hend].
      intros [|j] Hj; simpl; [split; [lia | done] | apply Hbefore; lia].
  - intros [= <- <-]. exists 0%nat. split; [lia |]. right. simpl.
    split; [lia | done].
Qed.

(** A match at poll [k], before the deadline, is returned at that poll. *)
Lemma wait_loop_finds (p : pattern) (t0 timeout poll_ms : Z)
    (a : option string) :
  0 <= poll_ms <= sleep_sure ->
  forall (k fuel : nat) (w : World),
    (k < fuel)%nat ->
    (forall j, (j < k)%nat ->
       now (after_polls j poll_ms w) - t0 < timeout * 1000
       /\ scan_clients p (source (after_polls j poll_ms w)) = None) ->
    now (after_polls k poll_ms w) - t0 < timeout * 1000 ->
    scan_clients p (source (after_polls k poll_ms w)) = Some a ->
    wait_loop source fuel p t0 timeout poll_ms w
    = (Ret a, fetched (after_polls k poll_ms w)).
Proof.
  intros Hpoll. induction k as [|k IH]; intros fuel w Hfuel Hbefore Hnow Hscan;
    (destruct fuel as [|fuel]; [lia |]); simpl in *.
  - destruct (now w - t0 <? timeout * 1000) eqn:E; [| lia].
    unfold bind at 1. rewrite hypr_clients_fetched. by rewrite Hscan.
  - destruct (Hbefore 0%nat ltac:(lia)) as [H0 Hscan0]. simpl in *.
    destruct (now w - t0 <? timeout * 1000) eqn:E; [| lia].
    unfold bind at 1. rewrite hypr_clients_fetched. rewrite Hscan0.
    unfold bind at 1. rewrite time_sleep_in_range by done.
    apply IH; [lia | | done | done].
    intros j Hj. apply (Hbefore (S j)). lia.
Qed.


End Waiter.

(** C10.  When the first window that matches, at whichever poll it shows up
    before the deadline, has no [address] field or an empty one, the rule
    is handled as a timeout: after the launch, the polls that found nothing
    and the fetch that found the window, the warning is printed and the
    rule ends normally; no placement command is issued. *)
Theorem falsy_address_is_reported_as_timeout {re : ReEngine} {clk : Clock}
    (source : World -> list window) (fuel : nat) (g : GeneralCfg)
    (dry_run : bool) (rule : AppRule) (w : World) (p : pattern) (k : nat)
    (pre : list window) (c : window) (post : list window) :
  let started := launched dry_run rule w in
  let poll_ms := poll_interval_ms g in
  let timeout := opt_int_or (timeout_s rule) (default_timeout_s g) in
  re_compile (class_regex rule) = Some p ->
  0 <= poll_ms <= sleep_sure ->
  (k < fuel)%nat ->
  (forall j, (j < k)%nat ->
     scan_clients p (source (after_polls j poll_ms started)) = None) ->
  now (after_polls k poll_ms started) - now started < timeout * 1000 ->
  source (after_polls k poll_ms started) = pre ++ c :: post ->
  Forall (fun c' => re_search p (class_of c') = false) pre ->
  re_search p (class_of c) = true ->
  c !! "address" = None \/ c !! "address" = Some "" ->
  exists w',
    process_rule source fuel g dry_run rule w = (Ret tt, w')
    /\ trace w'
       = trace w
         ++ EvStdout (launch_line rule)
            :: (if dry_run then [] else [EvSpawn (cmd rule)])
         ++ List.concat (replicate k [EvRun clients_cmd; EvSleep poll_ms])
         ++ [EvRun clients_cmd; EvStderr (warn_line rule)].
Proof.
  intros started poll_ms timeout Hp Hpoll Hfuel Hbefore Hnow Hsrc Hpre Hc Haddr.
  assert (Hscan : scan_clients p (source (after_polls k poll_ms started))
                  = Some (c !! "address")).
  { apply scan_clients_some. by exists pre, c, post. }
  assert (Hwait : wait_for_window source fuel (class_regex rule) timeout poll_ms
                    started
                  = (Ret (c !! "address"),
                     fetched (after_polls k poll_ms started))).
  { unfold wait_for_window. rewrite Hp. unfold bind, time_time.
    apply wait_loop_finds; try done.
    intros j Hj. split; [| by apply Hbefore].
    pose proof (after_polls_mono j k poll_ms started ltac:(lia) ltac:(lia)).
    lia. }
  assert (Hfalsy : opt_str_truthy (c !! "address") = false)
    by (by destruct Haddr as [-> | ->]).
  rewrite process_rule_launched. fold started poll_ms timeout.
  unfold bind at 1. rewrite Hwait, Hfalsy.
  eexists. split; [reflexivity |].
  simpl. rewrite after_polls_trace. unfold started.
  rewrite launched_trace. by rewrite <- !app_assoc.
Qed.

Lemma falsy_address_witness :
  exists w',
    process_rule late_ghost 5 sample_general false kitty_rule w0 = (Ret tt, w')
    /\ trace w'
       = trace w0
         ++ EvStdout (launch_line kitty_rule)
            :: [EvSpawn (cmd kitty_rule)]
         ++ List.concat (replicate 2 [EvRun clients_cmd; EvSleep 200])
         ++ [EvRun clients_cmd; EvStderr (warn_line kitty_rule)].
Proof.
  apply (falsy_address_is_reported_as_timeout late_ghost 5 sample_general
           false kitty_rule w0 kitty_pat 2 [] ghost_win []).
  - reflexivity.
  - vm_compute. split; discriminate.
  - lia.
  - intros [|[|j]] Hj; [reflexivity | reflexivity | lia].
  - vm_compute. reflexivity.
  - reflexivity.
  - constructor.
  - vm_compute. reflexivity.
  - left. vm_compute. reflexivity.
Defined.

(* ===================================================================== *)
(** ** The run ends *)
(* ===================================================================== *)

Lemma plain_dispatch_splits (parts : list string) :
  Forall (fun s => plain s = true) parts ->
  runnable ("hyprctl dispatch " +:+ String.concat "" parts) = true.
Proof.
  intros H. apply plain_runnable. rewrite plain_app. simpl.
  induction H as [|s parts Hs _ IH]; [done |].
  destruct parts as [|s' parts]; [done |].
  change (plain (s +:+ "" +:+ String.concat "" (s' :: parts)) = true).
  by rewrite !plain_app, Hs, IH.
Qed.

Section Termination.

Context {re : ReEngine} {clk : Clock} (source : World -> list window).

(** When every pass moves the clock, the loop ends within the timeout. *)
Lemma wait_loop_returns (pat : pattern) (t0 timeout poll_ms : Z) :
  0 <= poll_ms <= sleep_sure ->
  0 < poll_ms \/ (forall w1, 0 < lag w1 (EvRun clients_cmd)) ->
  forall (fuel : nat) (w : World),
    timeout * 1000 - (now w - t0) < Z.of_nat fuel ->
    exists a w',
      wait_loop source fuel pat t0 timeout poll_ms w = (Ret a, w').
Proof.
  intros Hpoll Hmove. induction fuel as [|fuel IH]; intros w Hfuel; simpl;
    destruct (now w - t0 <? timeout * 1000) eqn:E;
    try (by eexists _, _); [lia |].
  unfold bind at 1. rewrite hypr_clients_fetched.
  destruct (scan_clients pat (source w)) as [a|]; [by eexists _, _ |].
  unfold bind at 1. rewrite time_sleep_in_range by done.
  apply IH. simpl.
  pose proof (lag_nonneg w (EvRun clients_cmd)).
  pose proof (lag_nonneg (fetched w) (EvSleep poll_ms)). simpl in *.
  destruct Hmove as [Hp | Hl]; [lia |]. specialize (Hl w). lia.
Qed.

Lemma wait_for_window_returns (fuel : nat) (class_regex0 : string)
    (timeout poll_ms : Z) (w : World) :
  is_Some (re_compile class_regex0) ->
  0 <= poll_ms <= sleep_sure ->
  0 < poll_ms \/ (forall w1, 0 < lag w1 (EvRun clients_cmd)) ->
  1000 * timeout < Z.of_nat fuel ->
  exists a w',
    wait_for_window source fuel class_regex0 timeout poll_ms w = (Ret a, w').
Proof.
  intros [p Hp] Hpoll Hmove Hfuel. unfold wait_for_window. rewrite Hp.
  unfold bind, time_time. apply wait_loop_returns; [done | done | lia].
Qed.




End Termination.



(** With a poll interval of 0 the run still ends, on a clock on which the
    fetches take time: here after five hundred passes of two milliseconds
    each. *)
Example zero_poll_interval_run_ends :
  fst (orchestrate (clk := ticking) no_windows 1001 zero_poll_cfg false w0)
  = Ret 0
  /\ now (snd (orchestrate (clk := ticking) no_windows 1001 zero_poll_cfg
                 false w0)) = 1003.
Proof. by vm_compute. Qed.


(* ===================================================================== *)
(** ** Loading the configuration *)
(* ===================================================================== *)

Lemma tab_get_app_here (k : string) (v : toml) (l1 l2 : list (string * toml)) :
  tab_get k l1 = None -> tab_get k (l1 ++ (k, v) :: l2) = Some v.
Proof.
  induction l1 as [|[k' v'] l1 IH]; simpl.
  - by rewrite String.eqb_refl.
  - destruct (String.eqb k' k); [done | exact IH].
Qed.

Lemma tab_get_app_other (k k' : string) (v1 v2 : toml)
    (l1 l2 : list (string * toml)) :
  k <> k' ->
  tab_get k' (l1 ++ (k, v1) :: l2) = tab_get k' (l1 ++ (k, v2) :: l2).
Proof.
  intros Hne. induction l1 as [|[k0 v0] l1 IH]; simpl.
  - by destruct (String.eqb_spec k k').
  - by rewrite IH.
Qed.

(** C9 (as amended).  The loader checks no range.  Whether a document
    loads, and what it loads to, does not depend on the value of
    [poll_interval_ms] except for that field of the result: with an
    interval [z], zero and negative values included, the outcome is the
    outcome with any other interval [z'], carrying [z] unchanged.  So a
    document that loads with the usual interval loads with [z], and [main]
    goes on to run the orchestrator on it. *)
Theorem nonpositive_poll_interval_is_accepted {re : ReEngine} {clk : Clock}
    (source : World -> list window) (path : string) (dry_run : bool)
    (fuel : nat) (w : World) (d1 g1 : list (string * toml)) (z z' : Z)
    (g2 d2 : list (string * toml)) :
  tab_get "general" d1 = None ->
  tab_get "poll_interval_ms" g1 = None ->
  load_config (poll_doc d1 g1 z g2 d2)
  = outcome_map (with_poll_interval z) (load_config (poll_doc d1 g1 z' g2 d2))
  /\ (forall cfg,
        load_config (poll_doc d1 g1 z' g2 d2) = Ret cfg ->
        poll_interval_ms (general (with_poll_interval z cfg)) = z
        /\ main source (Args path dry_run) (Document (poll_doc d1 g1 z g2 d2))
             fuel w
           = orchestrate source fuel (with_poll_interval z cfg) dry_run w).
Proof.
  intros Hd1 Hg1.
  assert (Hload : forall x,
    load_config (poll_doc d1 g1 x g2 d2)
    = (pw <-- match tab_get "prewarm_workspaces"
                      (g1 ++ ("poll_interval_ms", TInt 0) :: g2) with
              | None => Ret []
              | Some (TArr l) => as_int_list l
              | Some _ => OutsideModel
              end ;;
       dflt <-- py_int (default (TInt 20)
                          (tab_get "default_timeout_s"
                             (g1 ++ ("poll_interval_ms", TInt 0) :: g2))) ;;
       entries <-- app_entries (poll_doc d1 g1 0 g2 d2) ;;
       rules <-- load_apps entries ;;
       Ret {| general := {| prewarm_workspaces := pw;
                            poll_interval_ms := x;
                            default_timeout_s := dflt |};
              apps := rules |})).
  { intros x. unfold load_config, load_general, general_table, app_entries,
      poll_doc.
    rewrite (tab_get_app_here "general" _ d1 d2 Hd1). simpl.
    rewrite (tab_get_app_here "poll_interval_ms" _ g1 g2 Hg1). simpl.
    rewrite (tab_get_app_other "poll_interval_ms" "prewarm_workspaces"
               (TInt x) (TInt 0) g1 g2) by done.
    rewrite (tab_get_app_other "poll_interval_ms" "default_timeout_s"
               (TInt x) (TInt 0) g1 g2) by done.
    rewrite (tab_get_app_other "general" "app"
               (TTab (g1 ++ ("poll_interval_ms", TInt x) :: g2))
               (TTab (g1 ++ ("poll_interval_ms", TInt 0) :: g2)) d1 d2) by done.
    destruct (match tab_get "prewarm_workspaces" _ with
              | Some (TArr l) => as_int_list l
              | Some _ => OutsideModel
              | None => Ret []
              end) as [pw | | |]; simpl; try done.
    by destruct (py_int _) as [d | | |]. }
  assert (Hmap : load_config (poll_doc d1 g1 z g2 d2)
                 = outcome_map (with_poll_interval z)
                     (load_config (poll_doc d1 g1 z' g2 d2))).
  { rewrite (Hload z), (Hload z').
    destruct (match tab_get "prewarm_workspaces" _ with
              | Some (TArr l) => as_int_list l
              | Some _ => OutsideModel
              | None => Ret []
              end) as [pw | | |]; simpl; try done.
    destruct (py_int _) as [d | | |]; simpl; try done.
    destruct (app_entries _) as [entries | | |]; simpl; try done.
    by destruct (load_apps entries) as [rules | | |]. }
  split; [done |].
  intros cfg Hcfg. split; [done |].
  unfold main, bind, lift. by rewrite Hmap, Hcfg.
Qed.

Lemma nonpositive_poll_interval_witness :
  load_config (poll_doc [] [("prewarm_workspaces", TArr [TInt 3; TInt 5])]
                 (-250) [] [])
  = outcome_map (with_poll_interval (-250))
      (load_config (poll_doc [] [("prewarm_workspaces", TArr [TInt 3; TInt 5])]
                      200 [] []))
  /\ (forall cfg,
        load_config (poll_doc [] [("prewarm_workspaces", TArr [TInt 3; TInt 5])]
                       200 [] []) = Ret cfg ->
        poll_interval_ms (general (with_poll_interval (-250) cfg)) = -250
        /\ main no_windows (Args "config.toml" false)
             (Document (poll_doc [] [("prewarm_workspaces",
                                      TArr [TInt 3; TInt 5])] (-250) [] []))
             5 w0
           = orchestrate no_windows 5 (with_poll_interval (-250) cfg) false w0).
Proof.
  apply (nonpositive_poll_interval_is_accepted no_windows "config.toml" false
           5 w0 [] [("prewarm_workspaces", TArr [TInt 3; TInt 5])] (-250) 200
           [] []).
  - reflexivity.
  - reflexivity.
Defined.

(** C9, the claim as written fails: a document that sets the poll interval
    to 0 is loaded, the prewarm command is issued and the run ends with
    exit status 0; a document that sets it to -250 is loaded as well.
    Nothing reports a configuration error. *)
Lemma zero_poll_interval_not_rejected :
  load_config zero_poll_doc
  = Ret {| general := {| prewarm_workspaces := [3; 5];
                         poll_interval_ms := 0;
                         default_timeout_s := 20 |};
           apps := [] |}
  /\ main no_windows (Args "config.toml" false) (Document zero_poll_doc) 5 w0
     = (Ret 0,
        {| now := 0;
           trace :=
             [EvRun "hyprctl --batch 'dispatch workspace 3; dispatch workspace 5'"] |})
  /\ load_config (poll_doc [] [] (-250) [] [])
     = Ret {| general := {| prewarm_workspaces := [];
                            poll_interval_ms := -250;
                            default_timeout_s := 20 |};
              apps := [] |}
  /\ main no_windows (Args "config.toml" false)
       (Document (poll_doc [] [] (-250) [] [])) 5 w0
     = (Ret 0, w0).
Proof. repeat split; by vm_compute. Qed.

(* ===================================================================== *)
(** ** The scenarios of the specification *)
(* ===================================================================== *)

(** The window shows up at the fourth poll: one prewarm command, one spawn,
    four fetches, one move to workspace 2, no monitor command, status 0. *)
Example scenario_window_appears :
  orchestrate (appears_after 3 xterm_win) 25 xterm_cfg false w0
  = (Ret 0,
     {| now := 150;
        trace :=
          [EvRun "hyprctl --batch 'dispatch workspace 3; dispatch workspace 5'";
           EvStdout "[dbj] launching: term -> ws2";
           EvSpawn "xterm";
           EvRun "hyprctl -j clients"; EvSleep 50;
           EvRun "hyprctl -j clients"; EvSleep 50;
           EvRun "hyprctl -j clients"; EvSleep 50;
           EvRun "hyprctl -j clients";
           EvStdout "[dbj] found window 0x1 for term, moving to ws2";
           EvRun "hyprctl dispatch movetoworkspace 2 address:0x1"] |}).
Proof. by vm_compute. Qed.

(** The window never shows up: twenty fetches in one second, the warning
    that names the rule and the pattern, no placement, status 0. *)
Example scenario_window_never_appears :
  let r := orchestrate no_windows 25 xterm_cfg false w0 in
  fst r = Ret 0
  /\ fetches (trace (snd r)) = 20%nat
  /\ last (trace (snd r))
     = Some (EvStderr
               "[dbj][WARN] timeout esperando ventana de 'term' (regex=^xterm$)")
  /\ List.filter is_dispatch (trace (snd r)) = [].
Proof. by vm_compute. Qed.

(** A missing configuration file: exit status 2 and nothing but the error
    line. *)
Example scenario_missing_file :
  main no_windows (Args "config.toml" false) Absent 25 w0
  = (Ret 2,
     {| now := 0;
        trace := [EvStderr "ERROR: No existe config: config.toml"] |}).
Proof. by vm_compute. Qed.

(* ===================================================================== *)
(** ** More on the loader and [main] *)
(* ===================================================================== *)

(** X1.  A document with neither a [general] table nor an [app] array is a
    valid configuration with no rule and nothing to prewarm: [main] ends
    with status 0 and leaves the world as it found it. *)
Theorem empty_document_is_a_no_op {re : ReEngine} {clk : Clock}
    (source : World -> list window) (path : string) (dry_run : bool)
    (fuel : nat) (w : World) (data : list (string * toml)) :
  tab_get "general" data = None ->
  tab_get "app" data = None ->
  load_config data
  = Ret {| general := {| prewarm_workspaces := [];
                         poll_interval_ms := 200;
                         default_timeout_s := 20 |};
           apps := [] |}
  /\ main source (Args path dry_run) (Document data) fuel w = (Ret 0, w).
Proof.
  intros Hgen Happ.
  assert (Hload : load_config data
    = Ret {| general := {| prewarm_workspaces := [];
                           poll_interval_ms := 200;
                           default_timeout_s := 20 |};
             apps := [] |}).
  { unfold load_config, load_general, general_table, app_entries.
    by rewrite Hgen, Happ. }
  split; [done |]. unfold main, bind, lift. by rewrite Hload.
Qed.

Lemma empty_document_witness :
  load_config [("title", TStr "nothing to do")]
  = Ret {| general := {| prewarm_workspaces := [];
                         poll_interval_ms := 200;
                         default_timeout_s := 20 |};
           apps := [] |}
  /\ main no_windows (Args "config.toml" false)
       (Document [("title", TStr "nothing to do")]) 5 w0 = (Ret 0, w0).
Proof.
  apply (empty_document_is_a_no_op no_windows "config.toml" false 5 w0
           [("title", TStr "nothing to do")]).
  - reflexivity.
  - reflexivity.
Defined.

(** An entry gives a rule only when the four required keys are there. *)
Lemma load_app_required (kv : list (string * toml)) (r : AppRule) :
  load_app (TTab kv) = Ret r ->
  Forall (fun k => is_Some (tab_get k kv))
    ["name"; "cmd"; "class_regex"; "workspace"].
Proof.
  unfold load_app, subscript. intros H.
  destruct (tab_get "name" kv) as [v1|] eqn:E1; simpl in H; [| done].
  destruct (as_str v1); simpl in H; try done.
  destruct (tab_get "cmd" kv) as [v2|] eqn:E2; simpl in H; [| done].
  destruct (as_str v2); simpl in H; try done.
  destruct (tab_get "class_regex" kv) as [v3|] eqn:E3; simpl in H; [| done].
  destruct (as_str v3); simpl in H; try done.
  destruct (tab_get "workspace" kv) as [v4|] eqn:E4; simpl in H; [| done].
  repeat (apply Forall_cons_2;
          [by (rewrite ?E1, ?E2, ?E3, ?E4; eexists) |]).
  apply Forall_nil_2.
Qed.

(** X2.  The rules of a loaded configuration are the entries of the [app]
    array, one rule per entry and in the same order. *)
Theorem load_apps_keeps_entries_in_order (entries : list toml)
    (rules : list AppRule) :
  load_apps entries = Ret rules <->
  Forall2 (fun e r => load_app e = Ret r) entries rules.
Proof.
  revert rules. induction entries as [|e entries IH]; intros rules; simpl.
  - split.
    + intros [= <-]. constructor.
    + intros H. by inversion H.
  - split.
    + destruct (load_app e) as [r | | |] eqn:He; simpl; try done.
      destruct (load_apps entries) as [rs | | |] eqn:Hrs; simpl; try done.
      intros [= <-]. constructor; [done |]. by apply IH.
    + intros H. inversion H as [|? r ? rs He Hrest]; subst.
      rewrite He. simpl. apply IH in Hrest. by rewrite Hrest.
Qed.

(** X3.  An entry of the [app] array that lacks [name], [cmd],
    [class_regex] or [workspace] makes the whole load fail, wherever the
    entry stands: no configuration is returned, and [main] ends without a
    status and without having issued anything.  When the entry is the
    first one and the general table loads, the exception is the [KeyError]
    of the first missing key. *)
Theorem entry_without_required_key_is_rejected {re : ReEngine} {clk : Clock}
    (source : World -> list window) (path : string) (dry_run : bool)
    (fuel : nat) (w : World)
    (data : list (string * toml)) (entries : list toml)
    (kv : list (string * toml)) (k : string) :
  tab_get "app" data = Some (TArr entries) ->
  TTab kv ∈ entries ->
  k ∈ ["name"; "cmd"; "class_regex"; "workspace"] ->
  tab_get k kv = None ->
  (forall cfg, load_config data <> Ret cfg)
  /\ (forall rc w', main source (Args path dry_run) (Document data) fuel w
                    <> (Ret rc, w'))
  /\ snd (main source (Args path dry_run) (Document data) fuel w) = w
  /\ (forall gc rest,
        load_general data = Ret gc ->
        entries = TTab kv :: rest ->
        tab_get "name" kv = None ->
        load_config data = Raise (KeyError "name")).
Proof.
  intros Happ Hin Hk Hnone.
  assert (Hno : forall cfg, load_config data <> Ret cfg).
  { intros cfg Hload. unfold load_config, app_entries in Hload.
    rewrite Happ in Hload.
    destruct (load_general data) as [gc | | |]; simpl in Hload; try done.
    destruct (load_apps entries) as [rules | | |] eqn:Hrules;
      simpl in Hload; try done.
    apply load_apps_keeps_entries_in_order in Hrules.
    apply list_elem_of_lookup in Hin as [i Hi].
    destruct (Forall2_lookup_l _ _ _ i _ Hrules Hi) as (r & _ & Hr).
    apply load_app_required in Hr. rewrite Forall_forall in Hr.
    destruct (Hr k Hk) as [v Hv]. congruence. }
  assert (Hfirst : forall gc rest,
            load_general data = Ret gc ->
            entries = TTab kv :: rest ->
            tab_get "name" kv = None ->
            load_config data = Raise (KeyError "name")).
  { intros gc rest Hgc -> Hname. unfold load_config, app_entries.
    rewrite Hgc, Happ. simpl. unfold subscript. by rewrite Hname. }
  split; [done |].
  unfold main, bind, lift.
  destruct (load_config data) as [cfg | e | |] eqn:Hload;
    [by destruct (Hno cfg) | by repeat split..].
Qed.

Lemma load_apps_in_order_witness :
  load_apps
    [TTab [("name", TStr "term"); ("cmd", TStr "kitty");
           ("class_regex", TStr "kitty"); ("workspace", TInt 2)];
     TTab [("name", TStr "web"); ("cmd", TStr "firefox");
           ("class_regex", TStr "firefox"); ("workspace", TInt 3);
           ("monitor", TStr "DP-1"); ("timeout_s", TInt 5)]]
  = Ret [kitty_rule;
         {| name := "web"; cmd := "firefox"; class_regex := "firefox";
            workspace := 3; monitor := Some "DP-1"; timeout_s := Some 5 |}].
Proof.
  apply load_apps_keeps_entries_in_order.
  constructor; [reflexivity |]. constructor; [reflexivity |]. constructor.
Defined.

Lemma entry_without_required_key_witness :
  (forall cfg, load_config missing_cmd_doc <> Ret cfg)
  /\ (forall rc w',
        main no_windows (Args "config.toml" false) (Document missing_cmd_doc)
          5 w0
        <> (Ret rc, w'))
  /\ snd (main no_windows (Args "config.toml" false)
            (Document missing_cmd_doc) 5 w0)
     = w0.
Proof.
  destruct (entry_without_required_key_is_rejected no_windows "config.toml"
              false 5 w0 missing_cmd_doc
              [TTab [("name", TStr "term"); ("cmd", TStr "kitty");
                     ("class_regex", TStr "kitty"); ("workspace", TInt 2)];
               TTab [("name", TStr "web");
                     ("class_regex", TStr "firefox"); ("workspace", TInt 3)]]
              [("name", TStr "web");
               ("class_regex", TStr "firefox"); ("workspace", TInt 3)]
              "cmd")
    as (H1 & H2 & H3 & _).
  - reflexivity.
  - apply list_elem_of_further, list_elem_of_here.
  - apply list_elem_of_further, list_elem_of_here.
  - reflexivity.
  - exact (conj H1 (conj H2 H3)).
Defined.


Lemma orchestrate_status {re : ReEngine} {clk : Clock}
    (source : World -> list window)
    (fuel : nat) (cfg : Config) (dry_run : bool) (w w' : World) (rc : Z) :
  orchestrate source fuel cfg dry_run w = (Ret rc, w') -> rc = 0.
Proof.
  unfold orchestrate, bind, ret.
  destruct (prewarm _ w) as [[| | |] w1]; try done.
  destruct (for_rules _ _ _ _ _ w1) as [[| | |] w2]; try done.
  by intros [= <- _].
Qed.

(** X4.  The exit statuses of [main].  When [main] ends with a status,
    either [parse_args] has exited (status 0 after the help text, status 2
    after a usage error), or the arguments were parsed and the status is 2
    because the configuration file does not exist, or it is 0 because the
    file was loaded into a configuration and the orchestrator went through
    it.  No other status is returned. *)
Theorem main_exit_status {re : ReEngine} {clk : Clock}
    (source : World -> list window) (args : cli) (file : config_file)
    (fuel : nat) (w w' : World) (rc : Z) :
  main source args file fuel w = (Ret rc, w') ->
  (rc = 0 /\ exists text, args = HelpExit text
                          /\ trace w' = trace w ++ [EvStdout text])
  \/ (rc = 2 /\ exists text, args = UsageExit text
                             /\ trace w' = trace w ++ [EvStderr text])
  \/ (rc = 2 /\ exists path dry_run,
        args = Args path dry_run /\ file = Absent
        /\ trace w'
           = trace w ++ [EvStderr ("ERROR: No existe config: " +:+ path)])
  \/ (rc = 0 /\ exists path dry_run data cfg,
        args = Args path dry_run
        /\ file = Document data
        /\ load_config data = Ret cfg
        /\ orchestrate source fuel cfg dry_run w = (Ret 0, w')).
Proof.
  destruct args as [path dry_run | text | text]; simpl.
  - destruct file as [| | data]; simpl.
    + unfold bind, print_err, emit, ret. simpl. intros [= <- <-].
      right. right. left. split; [done |]. by exists path, dry_run.
    + done.
    + unfold bind, lift.
      destruct (load_config data) as [cfg | | |] eqn:Hload; try done.
      intros H. pose proof (orchestrate_status _ _ _ _ _ _ _ H) as ->.
      right. right. right. split; [done |]. by exists path, dry_run, data, cfg.
  - unfold bind, print_out, emit, ret. simpl. intros [= <- <-].
    left. split; [done |]. by exists text.
  - unfold bind, print_err, emit, ret. simpl. intros [= <- <-].
    right. left. split; [done |]. by exists text.
Qed.

Lemma main_exit_status_witness :
  (2 = 0 /\ exists text, UsageExit "usage: dbj" = HelpExit text
                         /\ trace (snd (print_err "usage: dbj" w0))
                            = trace w0 ++ [EvStdout text])
  \/ (2 = 2 /\ exists text, UsageExit "usage: dbj" = UsageExit text
                            /\ trace (snd (print_err "usage: dbj" w0))
                               = trace w0 ++ [EvStderr text])
  \/ (2 = 2 /\ exists path dry_run,
        UsageExit "usage: dbj" = Args path dry_run
        /\ Document zero_poll_doc = Absent
        /\ trace (snd (print_err "usage: dbj" w0))
           = trace w0 ++ [EvStderr ("ERROR: No existe config: " +:+ path)])
  \/ (2 = 0 /\ exists path dry_run data cfg,
        UsageExit "usage: dbj" = Args path dry_run
        /\ Document zero_poll_doc = Document data
        /\ load_config data = Ret cfg
        /\ orchestrate no_windows 5 cfg dry_run w0
           = (Ret 0, snd (print_err "usage: dbj" w0))).
Proof.
  apply (main_exit_status no_windows (UsageExit "usage: dbj")
           (Document zero_poll_doc) 5 w0).
  reflexivity.
Defined.

(** X5.  [main] runs no command and launches nothing when [parse_args]
    exits, when the configuration file does not exist or cannot be decoded,
    or when loading the document raises an exception: all the history
    gains is text on standard output or standard error, and when the
    loader raises, the exception is the outcome of [main], in the world it
    started in. *)
Theorem no_action_without_configuration {re : ReEngine} {clk : Clock}
    (source : World -> list window) (args : cli) (file : config_file)
    (fuel : nat) (w : World) :
  match args, file with
  | Args _ _, Document data => exists e, load_config data = Raise e
  | _, _ => True
  end ->
  (exists evs,
     trace (snd (main source args file fuel w)) = trace w ++ evs
     /\ Forall (fun e => exists text, e = EvStdout text \/ e = EvStderr text)
          evs)
  /\ (forall path dry_run data e,
        args = Args path dry_run -> file = Document data ->
        load_config data = Raise e ->
        main source args file fuel w = (Raise e, w)).
Proof.
  intros Hno. destruct args as [path dry_run | text | text]; simpl.
  - destruct file as [| | data]; simpl.
    + split; [| done]. eexists [_]. split; [done |].
      constructor; [eexists; by right | constructor].
    + split; [| done]. exists []. rewrite app_nil_r. split; [done | constructor].
    + destruct Hno as [e He]. unfold bind, lift. rewrite He. split.
      * exists []. rewrite app_nil_r. split; [done | constructor].
      * intros ? ? ? e' _ [= <-] He'. congruence.
  - split; [| done]. eexists [_]. split; [done |].
    constructor; [eexists; by left | constructor].
  - split; [| done]. eexists [_]. split; [done |].
    constructor; [eexists; by right | constructor].
Qed.

Lemma no_action_without_configuration_witness :
  (exists evs,
     trace (snd (main no_windows (Args "config.toml" true)
                   (Document missing_cmd_doc) 5 w0)) = trace w0 ++ evs
     /\ Forall (fun e => exists text, e = EvStdout text \/ e = EvStderr text)
          evs)
  /\ (forall path dry_run data e,
        Args "config.toml" true = Args path dry_run ->
        Document missing_cmd_doc = Document data ->
        load_config data = Raise e ->
        main no_windows (Args "config.toml" true) (Document missing_cmd_doc)
          5 w0
        = (Raise e, w0)).
Proof.
  apply (no_action_without_configuration no_windows (Args "config.toml" true)
           (Document missing_cmd_doc) 5 w0).
  exists (KeyError "cmd"). vm_compute. reflexivity.
Defined.

(* ===================================================================== *)
(** ** More on the waiter *)
(* ===================================================================== *)

(** X6.  What an answer of the waiter means.  When [wait_for_window]
    returns [a], there is a number [k] of passes that found nothing, each
    started before the deadline and each made of one fetch and one sleep;
    then either poll [k] was made before the deadline, the scan of its
    snapshot gave [a] and the waiter returned right after that fetch, or
    the deadline had passed when pass [k] was due and [a] is [None]. *)
Theorem waiter_answer_comes_from_its_last_poll {re : ReEngine} {clk : Clock}
    (source : World -> list window) (fuel : nat) (class_regex0 : string)
    (p : pattern) (timeout poll_ms : Z) (w w' : World) (a : option string) :
  re_compile class_regex0 = Some p ->
  wait_for_window source fuel class_regex0 timeout poll_ms w = (Ret a, w') ->
  exists k : nat,
    (forall j, (j < k)%nat ->
       now (after_polls j poll_ms w) - now w < timeout * 1000
       /\ scan_clients p (source (after_polls j poll_ms w)) = None)
    /\ ((now (after_polls k poll_ms w) - now w < timeout * 1000
         /\ scan_clients p (source (after_polls k poll_ms w)) = Some a
         /\ w' = fetched (after_polls k poll_ms w))
        \/ (timeout * 1000 <= now (after_polls k poll_ms w) - now w
            /\ a = None
            /\ w' = after_polls k poll_ms w)).
Proof.
  intros Hp. unfold wait_for_window. rewrite Hp. unfold bind, time_time.
  apply wait_loop_answer.
Qed.

Lemma waiter_answer_witness :
  exists k : nat,
    (forall j, (j < k)%nat ->
       now (after_polls j 50 w0) - now w0 < 1 * 1000
       /\ scan_clients xterm_pat
            (appears_after 3 xterm_win (after_polls j 50 w0)) = None)
    /\ ((now (after_polls k 50 w0) - now w0 < 1 * 1000
         /\ scan_clients xterm_pat
              (appears_after 3 xterm_win (after_polls k 50 w0))
            = Some (Some "0x1")
         /\ snd (wait_for_window (appears_after 3 xterm_win) 25 "^xterm$"
                   1 50 w0)
            = fetched (after_polls k 50 w0))
        \/ (1 * 1000 <= now (after_polls k 50 w0) - now w0
            /\ Some "0x1" = None
            /\ snd (wait_for_window (appears_after 3 xterm_win) 25 "^xterm$"
                      1 50 w0)
               = after_polls k 50 w0)).
Proof.
  apply (waiter_answer_comes_from_its_last_poll (appears_after 3 xterm_win)
           25 "^xterm$" xterm_pat 1 50 w0).
  - reflexivity.
  - vm_compute. reflexivity.
Defined.

(** X7.  A window is returned at the poll at which it shows up.  With a
    poll interval that [time.sleep] accepts, if the first [k] polls find
    nothing and poll [k], made while less than the timeout has passed on
    the clock, finds a match, then the waiter returns that window's address
    right after the fetch of poll [k]: it has fetched [k + 1] times, slept
    [k] times, and does not sleep again. *)
Theorem window_is_returned_at_the_poll_it_appears {re : ReEngine} {clk : Clock}
    (source : World -> list window) (fuel : nat) (class_regex0 : string)
    (p : pattern) (timeout poll_ms : Z) (w : World) (k : nat)
    (a : option string) :
  re_compile class_regex0 = Some p ->
  0 <= poll_ms <= sleep_sure ->
  (k < fuel)%nat ->
  (forall j, (j < k)%nat ->
     scan_clients p (source (after_polls j poll_ms w)) = None) ->
  now (after_polls k poll_ms w) - now w < timeout * 1000 ->
  scan_clients p (source (after_polls k poll_ms w)) = Some a ->
  wait_for_window source fuel class_regex0 timeout poll_ms w
  = (Ret a, fetched (after_polls k poll_ms w))
  /\ trace (fetched (after_polls k poll_ms w))
     = trace w ++ List.concat (replicate k [EvRun clients_cmd; EvSleep poll_ms])
       ++ [EvRun clients_cmd]
  /\ fetches (trace (fetched (after_polls k poll_ms w)))
     = (fetches (trace w) + k + 1)%nat.
Proof.
  intros Hp Hpoll Hfuel Hbefore Hk Hscan. split; [| split].
  - unfold wait_for_window. rewrite Hp. unfold bind, time_time.
    apply wait_loop_finds; try done.
    intros j Hj. split; [| by apply Hbefore].
    pose proof (after_polls_mono j k poll_ms w ltac:(lia) ltac:(lia)). lia.
  - simpl. rewrite after_polls_trace. by rewrite <- app_assoc.
  - simpl. rewrite fetches_app, after_polls_fetches. by unfold fetches at 2.
Qed.

Lemma window_is_returned_witness :
  wait_for_window (appears_after 3 xterm_win) 25 "^xterm$" 1 50 w0
  = (Ret (Some "0x1"), fetched (after_polls 3 50 w0))
  /\ trace (fetched (after_polls 3 50 w0))
     = trace w0 ++ List.concat (replicate 3 [EvRun clients_cmd; EvSleep 50])
       ++ [EvRun clients_cmd]
  /\ fetches (trace (fetched (after_polls 3 50 w0)))
     = (fetches (trace w0) + 3 + 1)%nat.
Proof.
  apply (window_is_returned_at_the_poll_it_appears (appears_after 3 xterm_win)
           25 "^xterm$" xterm_pat 1 50 w0 3 (Some "0x1")).
  - reflexivity.
  - vm_compute. split; discriminate.
  - lia.
  - intros [|[|[|j]]] Hj; [reflexivity | reflexivity | reflexivity | lia].
  - vm_compute. reflexivity.
  - vm_compute. reflexivity.
Defined.

(** X8.  When no snapshot ever holds a match, the poll interval is one
    that [time.sleep] accepts and the clock moves at every pass, the waiter
    answers [None] after [k] passes, that is [k] fetches and [k] sleeps,
    where [k] is the first pass at which the timeout has passed on the
    clock.  Every sleep lasts at least the interval, so all passes but the
    last fit into the timeout: [(k - 1) * poll_ms < timeout * 1000]. *)
Theorem no_window_means_not_found_at_the_deadline {re : ReEngine} {clk : Clock}
    (source : World -> list window) (fuel : nat) (class_regex0 : string)
    (p : pattern) (timeout poll_ms : Z) (w : World) :
  re_compile class_regex0 = Some p ->
  (forall w1, scan_clients p (source w1) = None) ->
  0 <= poll_ms <= sleep_sure ->
  0 < poll_ms \/ (forall w1, 0 < lag w1 (EvRun clients_cmd)) ->
  1000 * timeout < Z.of_nat fuel ->
  exists k : nat,
    wait_for_window source fuel class_regex0 timeout poll_ms w
    = (Ret None, after_polls k poll_ms w)
    /\ timeout * 1000 <= now (after_polls k poll_ms w) - now w
    /\ (forall j, (j < k)%nat ->
          now (after_polls j poll_ms w) - now w < timeout * 1000)
    /\ ((0 < k)%nat -> (Z.of_nat k - 1) * poll_ms < timeout * 1000)
    /\ trace (after_polls k poll_ms w)
       = trace w ++ List.concat (replicate k [EvRun clients_cmd; EvSleep poll_ms])
    /\ fetches (trace (after_polls k poll_ms w))
       = (fetches (trace w) + k)%nat.
Proof.
  intros Hp Hnone Hpoll Hmove Hfuel.
  destruct (wait_for_window_returns source fuel class_regex0 timeout poll_ms w)
    as (a & w' & Hret); [by exists p | done..|].
  destruct (waiter_answer_comes_from_its_last_poll source fuel class_regex0 p
              timeout poll_ms w w' a Hp Hret) as (k & Hbefore & Hend).
  destruct Hend as [(_ & Hscan & _) | (Hk & -> & ->)];
    [by rewrite Hnone in Hscan |].
  exists k. split; [done |]. split; [done |].
  split; [intros j Hj; by destruct (Hbefore j Hj) |].
  split; [| split; [apply after_polls_trace | apply after_polls_fetches]].
  intros Hpos. destruct k as [|k]; [lia |].
  destruct (Hbefore k ltac:(lia)) as [Hlt _].
  pose proof (after_polls_now_ge k poll_ms w). lia.
Qed.

Lemma no_window_witness :
  exists k : nat,
    wait_for_window no_windows 1001 "kitty" 1 50 w0
    = (Ret None, after_polls k 50 w0)
    /\ 1 * 1000 <= now (after_polls k 50 w0) - now w0
    /\ (forall j, (j < k)%nat -> now (after_polls j 50 w0) - now w0 < 1 * 1000)
    /\ ((0 < k)%nat -> (Z.of_nat k - 1) * 50 < 1 * 1000)
    /\ trace (after_polls k 50 w0)
       = trace w0 ++ List.concat (replicate k [EvRun clients_cmd; EvSleep 50])
    /\ fetches (trace (after_polls k 50 w0)) = (fetches (trace w0) + k)%nat.
Proof.
  apply (no_window_means_not_found_at_the_deadline no_windows 1001 "kitty"
           kitty_pat 1 50 w0).
  - reflexivity.
  - intros w1. reflexivity.
  - vm_compute. split; discriminate.
  - left. reflexivity.
  - reflexivity.
Defined.

(** X9.  A negative poll interval (down to the lengths [time.sleep]
    converts) passes unnoticed as long as the first poll of a wait finds a
    match; when it finds none, the sleep that follows raises [ValueError],
    after that one fetch. *)
Theorem negative_poll_interval_fails_at_first_sleep {re : ReEngine}
    {clk : Clock}
    (source : World -> list window) (fuel : nat) (class_regex0 : string)
    (p : pattern) (timeout poll_ms : Z) (w : World) :
  re_compile class_regex0 = Some p ->
  - sleep_sure <= poll_ms < 0 ->
  0 < timeout ->
  wait_for_window source (S fuel) class_regex0 timeout poll_ms w
  = match scan_clients p (source w) with
    | Some a => (Ret a, fetched w)
    | None => (Raise ValueError, fetched w)
    end.
Proof.
  intros Hp Hpoll Ht. unfold wait_for_window. rewrite Hp.
  unfold bind at 1, time_time. simpl.
  destruct (now w - now w <? timeout * 1000) eqn:E; [| lia].
  unfold bind at 1. rewrite hypr_clients_fetched.
  destruct (scan_clients p (source w)); [done |].
  unfold bind, time_sleep, sleep_over, sleep_sure in *.
  destruct (10000000000000 <=? Z.abs poll_ms) eqn:E1; [lia |].
  destruct (9000000000000 <? Z.abs poll_ms) eqn:E2; [lia |].
  by destruct (poll_ms <? 0) eqn:E3; [| lia].
Qed.

Lemma negative_poll_interval_witness :
  wait_for_window no_windows 5 "kitty" 1 (-1) w0
  = match scan_clients kitty_pat (no_windows w0) with
    | Some a => (Ret a, fetched w0)
    | None => (Raise ValueError, fetched w0)
    end.
Proof.
  apply (negative_poll_interval_fails_at_first_sleep no_windows 4 "kitty"
           kitty_pat 1 (-1) w0).
  - reflexivity.
  - vm_compute. split; [discriminate | reflexivity].
  - lia.
Defined.

(* ===================================================================== *)
(** ** More on the orchestrator *)
(* ===================================================================== *)

(** X10.  What a found window leads to.  When a rule's wait returns a
    non-empty address, and, outside a dry run, neither that address nor the
    rule's monitor name holds a quote, a backslash or a NUL character, the
    rule prints the found line and then,
    outside a dry run, dispatches [movetoworkspace] for that address and
    the rule's workspace, followed, only when the rule names a non-empty
    monitor, by [focuswindow] and [movetomonitor], in this order; in a dry
    run it dispatches nothing.  The rule ends normally. *)
Theorem found_window_is_placed {re : ReEngine} {clk : Clock}
    (source : World -> list window) (fuel : nat) (g : GeneralCfg)
    (dry_run : bool) (rule : AppRule) (w ww : World) (c : ascii) (a : string) :
  wait_for_window source fuel (class_regex rule)
    (opt_int_or (timeout_s rule) (default_timeout_s g))
    (poll_interval_ms g) (launched dry_run rule w)
  = (Ret (Some (String c a)), ww) ->
  (dry_run = false -> plain (String c a) = true) ->
  (dry_run = false -> plain (default "" (monitor rule)) = true) ->
  exists w',
    process_rule source fuel g dry_run rule w = (Ret tt, w')
    /\ trace w'
       = trace ww
         ++ EvStdout (found_line (String c a) rule)
            :: (if dry_run then []
                else placement_events (String c a) rule).
Proof.
  intros Hwait Ha Hm. rewrite process_rule_launched. unfold bind at 1.
  rewrite Hwait. cbn [opt_str_truthy str_truthy default from_option id].
  unfold place, move_to_workspace, move_to_monitor, dispatch.
  unfold bind at 1, print_out, emit. cbn [fst snd].
  destruct dry_run; [by eexists |].
  specialize (Ha eq_refl). specialize (Hm eq_refl).
  rewrite (run_splits ("hyprctl dispatch " +:+ "movetoworkspace "
                       +:+ pretty (workspace rule) +:+ " address:"
                       +:+ String c a)).
  2:{ apply (plain_dispatch_splits
               ["movetoworkspace "; pretty (workspace rule); " address:";
                String c a]).
      repeat constructor; [apply plain_pretty_Z | done]. }
  unfold bind at 1, emit. cbn [fst snd].
  unfold placement_events.
  destruct (monitor rule) as [[|c' m]|]; cbn [opt_str_truthy str_truthy];
    try (eexists; split; [reflexivity |]; cbn [trace];
         by rewrite <- !app_assoc).
  cbn [default from_option id] in *.
  rewrite (run_splits ("hyprctl dispatch " +:+ "focuswindow address:"
                       +:+ String c a)).
  2:{ apply (plain_dispatch_splits ["focuswindow address:"; String c a]).
      by repeat constructor. }
  rewrite (run_splits ("hyprctl dispatch " +:+ "movetomonitor "
                       +:+ String c' m +:+ " address:" +:+ String c a)).
  2:{ apply (plain_dispatch_splits
               ["movetomonitor "; String c' m; " address:"; String c a]).
      by repeat constructor. }
  eexists. split; [reflexivity |]. cbn [trace snd fst bind emit].
  unfold bind, emit. cbn [trace snd fst]. by rewrite <- !app_assoc.
Qed.

Lemma found_window_witness :
  exists w',
    process_rule always_kitty 5 (general two_rule_cfg) false
      {| name := "term"; cmd := "kitty"; class_regex := "kitty";
         workspace := 2; monitor := Some "DP-1"; timeout_s := None |} w0
    = (Ret tt, w')
    /\ trace w'
       = [EvStdout "[dbj] launching: term -> ws2 @ DP-1";
          EvSpawn "kitty";
          EvRun "hyprctl -j clients"]
         ++ EvStdout "[dbj] found window 0x1 for term, moving to ws2"
            :: [EvRun "hyprctl dispatch movetoworkspace 2 address:0x1";
                EvRun "hyprctl dispatch focuswindow address:0x1";
                EvRun "hyprctl dispatch movetomonitor DP-1 address:0x1"].
Proof.
  apply (found_window_is_placed always_kitty 5 (general two_rule_cfg) false
           {| name := "term"; cmd := "kitty"; class_regex := "kitty";
              workspace := 2; monitor := Some "DP-1"; timeout_s := None |}
           w0
           {| now := 0;
              trace := [EvStdout "[dbj] launching: term -> ws2 @ DP-1";
                        EvSpawn "kitty";
                        EvRun "hyprctl -j clients"] |}
           "0"%char "x1").
  - vm_compute. reflexivity.
  - reflexivity.
  - reflexivity.
Defined.

Lemma spawned_app (t1 t2 : list event) :
  spawned (t1 ++ t2) = spawned t1 ++ spawned t2.
Proof. unfold spawned. apply flat_map_app. Qed.

Lemma spawned_none (evs : list event) :
  Forall (fun e => is_spawn e = false) evs -> spawned evs = [].
Proof.
  induction 1 as [|e evs He _ IH]; [done |].
  destruct e; simpl in *; try done.
Qed.

Section Launches.

Context {re : ReEngine} {clk : Clock} (source : World -> list window).

Lemma process_rule_spawned (fuel : nat) (g : GeneralCfg) (dry_run : bool)
    (rule : AppRule) (w : World) :
  spawned (trace (snd (process_rule source fuel g dry_run rule w)))
  = spawned (trace w) ++ (if dry_run then [] else [cmd rule]).
Proof.
  rewrite process_rule_launched.
  set (k := fun addr : option string =>
              if opt_str_truthy addr
              then print_out (found_line (default "" addr) rule) ;;;
                   place dry_run (default "" addr) rule
              else print_err (warn_line rule)).
  assert (Hem : emits (fun e => is_spawn e = false)
                  (bind (wait_for_window source fuel (class_regex rule)
                           (opt_int_or (timeout_s rule) (default_timeout_s g))
                           (poll_interval_ms g)) k)).
  { apply emits_bind; [by apply emits_wait_for_window |].
    intros addr. unfold k, place, move_to_workspace, move_to_monitor,
      dispatch, print_out, print_err.
    destruct (opt_str_truthy addr); [| by apply emits_emit].
    apply emits_bind; [by apply emits_emit |]. intros _.
    destruct dry_run; [apply emits_ret |].
    apply emits_bind; [by apply emits_run |]. intros _.
    destruct (opt_str_truthy (monitor rule)); [| apply emits_ret].
    apply emits_bind; [by apply emits_run |]. intros _.
    by apply emits_run. }
  destruct (Hem (launched dry_run rule w)) as (evs & Htr & Hevs).
  fold k. rewrite Htr, launched_trace, !spawned_app, (spawned_none evs Hevs).
  rewrite app_nil_r. by destruct dry_run.
Qed.

Lemma for_rules_spawned (fuel : nat) (g : GeneralCfg) (dry_run : bool)
    (rules : list AppRule) :
  forall w, exists n : nat,
    (n <= List.length rules)%nat
    /\ spawned (trace (snd (for_rules source fuel g dry_run rules w)))
       = spawned (trace w)
         ++ (if dry_run then [] else map cmd (take n rules))
    /\ (fst (for_rules source fuel g dry_run rules w) = Ret tt ->
        n = List.length rules).
Proof.
  induction rules as [|r rest IH]; intros w; simpl.
  - exists 0%nat. split; [done |]. split; [| done].
    by destruct dry_run; rewrite ?app_nil_r.
  - pose proof (process_rule_spawned fuel g dry_run r w) as Hr.
    unfold bind.
    destruct (process_rule source fuel g dry_run r w) as [[[] | e | |] w1];
      simpl in Hr.
    + destruct (IH w1) as (n & Hn & Hsp & Hall).
      exists (S n). split; [lia |]. split.
      * simpl. rewrite Hsp, Hr. destruct dry_run; simpl; by rewrite <- ?app_assoc.
      * intros H. by rewrite (Hall H).
    + exists 1%nat. split; [lia |]. split; [| done].
      simpl. rewrite Hr. destruct dry_run; simpl; by rewrite ?take_0.
    + exists 1%nat. split; [lia |]. split; [| done].
      simpl. rewrite Hr. destruct dry_run; simpl; by rewrite ?take_0.
    + exists 1%nat. split; [lia |]. split; [| done].
      simpl. rewrite Hr. destruct dry_run; simpl; by rewrite ?take_0.
Qed.

End Launches.

(** X11.  Outside a dry run the commands of the rules are launched once
    each, in the order of the configuration, and nothing else is launched:
    the launches of a run are the commands of the first [n] rules, and of
    all the rules when the run ends with an exit status. *)
Theorem commands_are_launched_once_in_order {re : ReEngine} {clk : Clock}
    (source : World -> list window) (fuel : nat) (cfg : Config) (w : World) :
  exists n : nat,
    (n <= List.length (apps cfg))%nat
    /\ spawned (trace (snd (orchestrate source fuel cfg false w)))
       = spawned (trace w) ++ map cmd (take n (apps cfg))
    /\ (forall rc,
          fst (orchestrate source fuel cfg false w) = Ret rc ->
          spawned (trace (snd (orchestrate source fuel cfg false w)))
          = spawned (trace w) ++ map cmd (apps cfg)).
Proof.
  destruct (prewarm_runs (prewarm_workspaces (general cfg)) w)
    as (w1 & Hpre & Htr).
  rewrite (orchestrate_after_prewarm source fuel cfg false w w1 Hpre).
  destruct (for_rules_spawned source fuel (general cfg) false (apps cfg) w1)
    as (n & Hn & Hsp & Hall).
  assert (Hw1 : spawned (trace w1) = spawned (trace w)).
  { rewrite Htr, spawned_app.
    destruct (prewarm_workspaces (general cfg)); simpl; by rewrite app_nil_r. }
  unfold bind, ret.
  destruct (for_rules source fuel (general cfg) false (apps cfg) w1)
    as [[[] | e | |] w2]; simpl in *; rewrite Hw1 in Hsp;
    exists n; (split; [done |]); (split; [done |]); intros rc Hrc; try done.
  rewrite Hsp, Hall by done. by rewrite firstn_all.
Qed.

Lemma commands_are_launched_witness :
  spawned (trace (snd (orchestrate always_kitty 5 two_rule_cfg false w0)))
  = spawned (trace w0) ++ map cmd (apps two_rule_cfg).
Proof.
  destruct (commands_are_launched_once_in_order always_kitty 5 two_rule_cfg w0)
    as (n & _ & _ & Hall).
  apply (Hall 0). reflexivity.
Defined.
